(** * secure-box: the file cipher of [src/lib/crypto.ts]

    A shallow embedding of [deriveKey], [encryptFile], [decryptFile] and
    [formatFileSize], and the properties of the container format they
    implement.

    The browser primitives the code calls (SHA-256, AES-GCM, JSON,
    TextEncoder/TextDecoder, the random source) are an interface,
    [Platform], with the laws the Web Crypto and ECMAScript standards give
    them, [PlatformOk].  Every theorem about the cipher holds for every
    lawful platform; [Reference] is a small lawful platform on which the
    definitions evaluate. *)

From Stdlib Require Import String Ascii DecimalString.
From Stdlib Require Import ZArith NArith List Bool Lia Floats Sorting.Sorted.
From coqutil Require Import Byte Word.LittleEndianList.
Import ListNotations.
Local Open Scope Z_scope.

(* ===================================================================== *)
(** ** Bytes and typed arrays *)

Definition bytes := list byte.

(** Bitwise exclusive or of two octets. *)
Definition xor8 (a b : byte) : byte :=
  let '(a0, (a1, (a2, (a3, (a4, (a5, (a6, a7))))))) := Byte.to_bits a in
  let '(b0, (b1, (b2, (b3, (b4, (b5, (b6, b7))))))) := Byte.to_bits b in
  Byte.of_bits (xorb a0 b0, (xorb a1 b1, (xorb a2 b2, (xorb a3 b3,
               (xorb a4 b4, (xorb a5 b5, (xorb a6 b6, xorb a7 b7))))))).

Fixpoint xor_bytes (a b : bytes) : bytes :=
  match a, b with
  | x :: a', y :: b' => xor8 x y :: xor_bytes a' b'
  | _, _ => []
  end.

Definition byte_of_N (n : N) : byte :=
  match Byte.of_N n with Some b => b | None => Byte.x00 end.

(** [TypedArray.prototype.slice(start, end)] for non-negative arguments:
    both ends are clamped to the length, and an end before the start gives
    the empty array. *)
Definition slice (start end_ : nat) (a : bytes) : bytes :=
  firstn (end_ - start) (skipn start a).

(** [TypedArray.prototype.slice(start)]. *)
Definition slice_from (start : nat) (a : bytes) : bytes := skipn start a.

(* ===================================================================== *)
(** ** JavaScript strings and values *)

(** A JavaScript string is a sequence of UTF-16 code units. *)
Definition code_unit := N.
Definition jsstring := list code_unit.

Definition is_code_unit (c : code_unit) : Prop := (c < 65536)%N.
Definition is_jsstring (s : jsstring) : Prop := Forall is_code_unit s.

(** A string literal of the source (ASCII). *)
Definition lit (s : string) : jsstring :=
  map N_of_ascii (list_ascii_of_string s).

Fixpoint jsstring_eqb (a b : jsstring) : bool :=
  match a, b with
  | [], [] => true
  | x :: a', y :: b' => (x =? y)%N && jsstring_eqb a' b'
  | _, _ => false
  end.

(** The values [JSON.parse] returns; a number is a binary64. *)
#[local] Set Warnings "-register-all".
Inductive value : Type :=
| JNull
| JBool (b : bool)
| JNumber (x : float)
| JString (s : jsstring)
| JArray (items : list value)
| JObject (props : list (jsstring * value)).

(** What the code throws. *)
Inductive exn : Type :=
| Error (message : jsstring)
| RangeError
| SyntaxError
| TypeError.

Fixpoint lookup (key : jsstring) (props : list (jsstring * value)) : option value :=
  match props with
  | [] => None
  | (k, v) :: rest => if jsstring_eqb k key then Some v else lookup key rest
  end.

(** [v.key] for [key] one of [name], [type]: reading a property of [null]
    throws; an object gives its own property or [undefined] ([None]);
    primitives and arrays have no property of either name. *)
Definition get (v : value) (key : jsstring) : exn + option value :=
  match v with
  | JNull => inl TypeError
  | JObject props => inr (lookup key props)
  | _ => inr None
  end.

(** ToBoolean. *)
Definition truthy (v : option value) : bool :=
  match v with
  | None => false
  | Some JNull => false
  | Some (JBool b) => b
  | Some (JNumber x) => negb (PrimFloat.eqb x 0 || PrimFloat.is_nan x)
  | Some (JString s) => match s with [] => false | _ => true end
  | Some (JArray _) => true
  | Some (JObject _) => true
  end.

(** [v || d]. *)
Definition or_else (v : option value) (d : value) : value :=
  match v with
  | Some x => if truthy v then x else d
  | None => d
  end.

(* ===================================================================== *)
(** ** The platform *)

Class Platform : Type := {
  (** SHA-256 *)
  sha256 : bytes -> bytes;
  (** [crypto.subtle.encrypt({name: 'AES-GCM', iv}, key, data)] *)
  aes_gcm_encrypt : bytes -> bytes -> bytes -> bytes;
  (** [crypto.subtle.decrypt({name: 'AES-GCM', iv}, key, data)];
      [None] is a rejected promise. *)
  aes_gcm_decrypt : bytes -> bytes -> bytes -> option bytes;
  (** [JSON.stringify] *)
  JSON_stringify : value -> jsstring;
  (** [JSON.parse]; [None] is a SyntaxError. *)
  JSON_parse : jsstring -> option value;
  (** [new TextEncoder().encode] *)
  TextEncoder_encode : jsstring -> bytes;
  (** [new TextDecoder().decode] *)
  TextDecoder_decode : bytes -> jsstring;
  (** [Number::toString]: the decimal string of a number *)
  Number_toString : float -> jsstring
}.

(** The metadata record of [encryptFile]. *)
Definition metadata_record (name type : jsstring) : value :=
  JObject [(lit "name", JString name); (lit "type", JString type)].

Class PlatformOk (P : Platform) : Prop := {
  (** A SHA-256 digest is 32 octets. *)
  sha256_length : forall m, length (sha256 m) = 32%nat;
  (** AES-256-GCM with a 96-bit nonce: decryption inverts encryption. *)
  aes_gcm_decrypt_encrypt : forall key iv data,
    length key = 32%nat -> length iv = 12%nat ->
    aes_gcm_decrypt key iv (aes_gcm_encrypt key iv data) = Some data;
  (** A ciphertext shorter than the 128-bit tag is rejected. *)
  aes_gcm_decrypt_short : forall key iv data,
    (length data < 16)%nat -> aes_gcm_decrypt key iv data = None;
  (** UTF-8 encodes an ASCII code unit as one octet of the same value. *)
  TextEncoder_encode_ascii : forall s,
    Forall (fun c => (c < 128)%N) s ->
    TextEncoder_encode s = map byte_of_N s;
  (** A record of two strings survives stringify, UTF-8 and parse
      ([JSON.stringify] escapes a lone surrogate since ECMAScript 2019). *)
  JSON_parse_stringify : forall name type,
    is_jsstring name -> is_jsstring type ->
    JSON_parse (TextDecoder_decode (TextEncoder_encode
      (JSON_stringify (metadata_record name type))))
    = Some (metadata_record name type)
}.

(** AES-GCM as an ideal authenticated cipher: a ciphertext is rejected
    under every 256-bit key but the one that produced it.  (Of the real
    cipher this is the authenticity it is used for: another key passes the
    128-bit tag with a chance of 2^-128.) *)
Class Authentic (P : Platform) : Prop := {
  aes_gcm_authentic : forall key key' iv data,
    length key = 32%nat -> length key' = 32%nat -> key <> key' ->
    aes_gcm_decrypt key' iv (aes_gcm_encrypt key iv data) = None
}.

(* ===================================================================== *)
(** ** Conversion to a string

    [ToString] of a value that [JSON.parse] returned, as the conversion to
    a DOMString applies it to the [type] of a Blob and to the [download] of
    an anchor.  Such a value is a primitive, an ordinary array, or an
    ordinary object whose properties are data properties of its own, none of
    them a function; [Object.prototype] and [Array.prototype] are as the
    language defines them.

    An object is converted by [OrdinaryToPrimitive]: [toString] is called
    when it is callable, then [valueOf].  The inherited [toString] gives
    ['[object Object]']; a property [toString] of the object's own hides
    it and cannot be called, and [valueOf], its own or inherited, gives no
    primitive: a TypeError.  An array is converted by [Array.prototype.join]
    with a comma: [null] gives the empty string, every other element its
    own [ToString], which may throw. *)

(** [Array.prototype.join] with a comma, given the conversion of an
    element. *)
Definition join (ToString : value -> exn + jsstring)
    : list value -> exn + jsstring :=
  fix join (items : list value) : exn + jsstring :=
    match items with
    | [] => inr []
    | element :: rest =>
      match
        match element with JNull => inr [] | _ => ToString element end
      with
      | inl e => inl e
      | inr s =>
        match rest with
        | [] => inr s
        | _ :: _ =>
          match join rest with
          | inl e => inl e
          | inr r => inr (s ++ lit "," ++ r)
          end
        end
      end
    end.

Section Conversion.
Context {P : Platform}.

Fixpoint ToString (v : value) : exn + jsstring :=
  match v with
  | JNull => inr (lit "null")
  | JBool true => inr (lit "true")
  | JBool false => inr (lit "false")
  | JNumber x => inr (Number_toString x)
  | JString s => inr s
  | JArray items => join ToString items
  | JObject props =>
    match lookup (lit "toString") props with
    | Some _ => inl TypeError
    | None => inr (lit "[object Object]")
    end
  end.

End Conversion.

(* ===================================================================== *)
(** ** Key derivation: PBKDF2-HMAC-SHA256

    [crypto.subtle.deriveKey] with [{name: 'PBKDF2', hash: 'SHA-256'}] is,
    by the Web Cryptography API, the PBKDF2 of RFC 8018 with the HMAC of
    FIPS 198-1 over SHA-256 as its pseudo-random function.  The two
    constructions are written out; the hash function is the platform's. *)

Definition ALGORITHM : string := "AES-GCM".
Definition KEY_LENGTH : Z := 256.
Definition IV_LENGTH : nat := 12.
Definition SALT_LENGTH : nat := 16.
Definition ITERATIONS : N := 100000.

Section KeyDerivation.
Context {P : Platform}.

(** HMAC (RFC 2104, FIPS 198-1) over SHA-256, whose block is 64 octets: a
    key longer than a block is hashed, and the key is then padded with
    zeros to the block length. *)
Definition HMAC_block_length : nat := 64.

Definition HMAC_key_block (K : bytes) : bytes :=
  let K' := if (HMAC_block_length <? length K)%nat then sha256 K else K in
  K' ++ repeat Byte.x00 (HMAC_block_length - length K').

(** [H((K0 xor opad) || H((K0 xor ipad) || text))], given the two padded
    keys. *)
Definition HMAC_of_pads (pads : bytes * bytes) (text : bytes) : bytes :=
  sha256 (snd pads ++ sha256 (fst pads ++ text)).

Definition HMAC_pads (K0 : bytes) : bytes * bytes :=
  (map (xor8 Byte.x36) K0, map (xor8 Byte.x5c) K0).

Definition HMAC (K text : bytes) : bytes :=
  HMAC_of_pads (HMAC_pads (HMAC_key_block K)) text.

(** The four-octet big-endian block index of PBKDF2. *)
Definition INT_32_BE (i : Z) : bytes := rev (le_split 4 i).

(** PBKDF2 (RFC 8018, section 5.2): block [i] is the exclusive or of the
    chain [U_1 = PRF(P, S || INT(i))], [U_j = PRF(P, U_(j-1))]. *)
Definition PBKDF2_step (pads : bytes * bytes) (UT : bytes * bytes)
    : bytes * bytes :=
  let U := HMAC_of_pads pads (fst UT) in (U, xor_bytes (snd UT) U).

Definition PBKDF2_F (K0 S : bytes) (c : N) (i : Z) : bytes :=
  let pads := HMAC_pads K0 in
  let U1 := HMAC_of_pads pads (S ++ INT_32_BE i) in
  snd (N.iter (c - 1) (PBKDF2_step pads) (U1, U1)).

Definition PBKDF2 (Pw S : bytes) (c : N) (dkLen : nat) : bytes :=
  let K0 := HMAC_key_block Pw in
  let l := ((dkLen + 31) / 32)%nat in
  firstn dkLen
    (flat_map (fun i => PBKDF2_F K0 S c (Z.of_nat i)) (seq 1 l)).

(** [deriveKey]: the password's UTF-8 octets are the PBKDF2 key material;
    the derived AES key has [KEY_LENGTH] bits. *)
Definition deriveKey (password : jsstring) (salt : bytes) : bytes :=
  let passwordBuffer := TextEncoder_encode password in
  PBKDF2 passwordBuffer salt ITERATIONS (Z.to_nat (KEY_LENGTH / 8)).

End KeyDerivation.

(* ===================================================================== *)
(** ** Typed arrays, files and blobs *)

(** [new Uint8Array(n)]: [n] zero octets. *)
Definition Uint8Array_new (n : nat) : bytes := repeat Byte.x00 n.

(** [target.set(source, offset)]: throws a RangeError when the source does
    not fit; otherwise overwrites the octets from [offset] on. *)
Definition Uint8Array_set (target source : bytes) (offset : nat) : exn + bytes :=
  if (offset + length source <=? length target)%nat
  then inr (firstn offset target ++ source
              ++ skipn (offset + length source) target)
  else inl RangeError.

(** The octets of [new Uint32Array([n]).buffer]: the element wraps modulo
    2^32 and is stored in the byte order of the host, little-endian. *)
Definition Uint32Array_of (n : Z) : bytes := le_split 4 (n mod 2 ^ 32).

(** [new Uint32Array(buffer)[0]]: the constructor throws a RangeError when
    the byte length is not a multiple of 4; element 0 of an empty array is
    [undefined] ([None]). *)
Definition Uint32Array_first (buffer : bytes) : exn + option Z :=
  if (length buffer mod 4 =? 0)%nat
  then inr (match buffer with
            | [] => None
            | _ => Some (le_combine (firstn 4 buffer))
            end)
  else inl RangeError.

Record File : Type := {
  file_name : jsstring;
  file_type : jsstring;
  file_bytes : bytes        (* [await file.arrayBuffer()] *)
}.

Record Blob : Type := {
  blob_bytes : bytes;
  blob_type : value         (* the [type] option: a string *)
}.

(** [new Blob([content], {type})]: the option [type] is converted to a
    string, which can throw. *)
Definition new_Blob {P : Platform} (content : bytes) (type : value)
    : exn + Blob :=
  match ToString type with
  | inr t => inr {| blob_bytes := content; blob_type := JString t |}
  | inl e => inl e
  end.

Record Decrypted : Type := {
  blob : Blob;
  filename : value;
  mimeType : value
}.

(* ===================================================================== *)
(** ** Effects: the progress callback, the random source, exceptions *)

Section Effects.
Variable UI : Type.

(** [onProgress] acts on the state of its caller.  The callbacks here are
    those that return, as the [setProgress] of the component does; what a
    callback that throws would do to its caller is not described. *)
Definition callback : Type := Z -> UI -> UI.

Record World : Type := {
  ui : UI;
  random : nat -> byte       (* the octets [crypto.getRandomValues] will give *)
}.

(** A computation changes the world and returns or throws; what the
    callback did before a throw stays done. *)
Definition M (A : Type) : Type := World -> World * (exn + A).

Definition ret {A} (a : A) : M A := fun w => (w, inr a).
Definition throw {A} (e : exn) : M A := fun w => (w, inl e).
Definition bind {A B} (m : M A) (k : A -> M B) : M B :=
  fun w => match m w with
           | (w', inr a) => k a w'
           | (w', inl e) => (w', inl e)
           end.
Definition lift {A} (r : exn + A) : M A :=
  match r with inr a => ret a | inl e => throw e end.

(** [onProgress?.(p)] *)
Definition report (onProgress : option callback) (p : Z) : M unit :=
  fun w => match onProgress with
           | Some f => ({| ui := f p (ui w); random := random w |}, inr tt)
           | None => (w, inr tt)
           end.

(** [crypto.getRandomValues(new Uint8Array(n))] *)
Definition getRandomValues (n : nat) : M bytes :=
  fun w => ({| ui := ui w; random := fun i => random w (n + i)%nat |},
            inr (map (random w) (seq 0 n))).

(** The world after the progress values [ps] were reported in turn. *)
Fixpoint reports (onProgress : option callback) (ps : list Z) (w : World)
    : World :=
  match ps with
  | [] => w
  | p :: ps' => reports onProgress ps' (fst (report onProgress p w))
  end.

(** The world after [n] random octets were drawn. *)
Definition drawn (n : nat) (w : World) : World := fst (getRandomValues n w).

End Effects.

Arguments ui {UI} w.
Arguments random {UI} w.
Arguments report {UI} onProgress p.
Arguments reports {UI} onProgress ps w.
Arguments drawn {UI} n w.
Arguments ret {UI A} a.
Arguments throw {UI A} e.
Arguments bind {UI A B} m k.
Arguments lift {UI A} r.
Arguments getRandomValues {UI} n.

Declare Scope cipher_scope.
Delimit Scope cipher_scope with cipher.
Notation "x <- m ;; k" := (bind m (fun x => k))
  (at level 61, m at next level, right associativity) : cipher_scope.
Notation "m ;; k" := (bind m (fun _ => k))
  (at level 61, right associativity) : cipher_scope.

(** Errors without effects. *)
Definition bind_exn {A B} (r : exn + A) (k : A -> exn + B) : exn + B :=
  match r with inr a => k a | inl e => inl e end.

(* ===================================================================== *)
(** ** [encryptFile] and [decryptFile] *)

Section FileCipher.
Context {P : Platform}.
Variable UI : Type.

Local Open Scope cipher_scope.

(** [new TextEncoder().encode(JSON.stringify({name, type}))] *)
Definition metadataBytes_of (file : File) : bytes :=
  TextEncoder_encode
    (JSON_stringify (metadata_record (file_name file) (file_type file))).

(** The buffer handed to AES-GCM: metadata length, metadata, file content
    (crypto.ts, lines 66-79). *)
Definition dataToEncrypt (file : File) (fileBuffer : bytes) : exn + bytes :=
  let metadataBytes := metadataBytes_of file in
  let metadataLength := Uint32Array_of (Z.of_nat (length metadataBytes)) in
  let buffer :=
    Uint8Array_new (4 + length metadataBytes + length fileBuffer) in
  bind_exn (Uint8Array_set buffer metadataLength 0) (fun buffer =>
  bind_exn (Uint8Array_set buffer metadataBytes 4) (fun buffer =>
  Uint8Array_set buffer fileBuffer (4 + length metadataBytes))).

(** The container: salt, iv, encrypted data (crypto.ts, lines 92-97). *)
Definition container (salt iv encryptedData : bytes) : exn + bytes :=
  let result :=
    Uint8Array_new (length salt + length iv + length encryptedData) in
  bind_exn (Uint8Array_set result salt 0) (fun result =>
  bind_exn (Uint8Array_set result iv (length salt)) (fun result =>
  Uint8Array_set result encryptedData (length salt + length iv))).

Definition encryptFile (file : File) (password : jsstring)
    (onProgress : option (callback UI)) : M UI Blob :=
  report onProgress 10 ;;
  salt <- getRandomValues SALT_LENGTH ;;
  iv <- getRandomValues IV_LENGTH ;;
  report onProgress 20 ;;
  let key := deriveKey password salt in
  report onProgress 30 ;;
  let fileBuffer := file_bytes file in
  report onProgress 50 ;;
  data <- lift (dataToEncrypt file fileBuffer) ;;
  report onProgress 70 ;;
  let encryptedData := aes_gcm_encrypt key iv data in
  report onProgress 90 ;;
  result <- lift (container salt iv encryptedData) ;;
  report onProgress 100 ;;
  ret {| blob_bytes := result;
         blob_type := JString (lit "application/encrypted") |}.

(** The message of the one error [decryptFile] throws itself
    (crypto.ts, line 139), code unit by code unit. *)
Definition wrong_password_or_corrupt : jsstring :=
  lit "Contrase" ++ [8730; 177]%N ++ lit "a incorrecta o archivo corrupto".

Definition default_filename : jsstring := lit "archivo_descifrado".
Definition default_type : jsstring := lit "application/octet-stream".

(** [new Uint32Array(decryptedBytes.slice(0, 4).buffer)[0]] *)
Definition metadataLength_of (decryptedBytes : bytes) : exn + option Z :=
  Uint32Array_first (slice 0 4 decryptedBytes).

(** [4 + metadataLength] as a slice bound: [4 + undefined] is NaN, which a
    slice bound reads as 0. *)
Definition metadata_end (metadataLength : option Z) : nat :=
  match metadataLength with
  | Some n => Z.to_nat (4 + n)
  | None => 0%nat
  end.

Definition decryptFile (file : File) (password : jsstring)
    (onProgress : option (callback UI)) : M UI Decrypted :=
  report onProgress 10 ;;
  let data := file_bytes file in
  report onProgress 20 ;;
  let salt := slice 0 SALT_LENGTH data in
  let iv := slice SALT_LENGTH (SALT_LENGTH + IV_LENGTH) data in
  let encryptedData := slice_from (SALT_LENGTH + IV_LENGTH) data in
  report onProgress 30 ;;
  let key := deriveKey password salt in
  report onProgress 50 ;;
  decryptedBytes <-
    match aes_gcm_decrypt key iv encryptedData with
    | Some decryptedData => ret decryptedData
    | None => throw (Error wrong_password_or_corrupt)
    end ;;
  report onProgress 70 ;;
  metadataLength <- lift (metadataLength_of decryptedBytes) ;;
  let metadataBytes := slice 4 (metadata_end metadataLength) decryptedBytes in
  metadata <-
    match JSON_parse (TextDecoder_decode metadataBytes) with
    | Some v => ret v
    | None => throw SyntaxError
    end ;;
  let fileContent := slice_from (metadata_end metadataLength) decryptedBytes in
  report onProgress 100 ;;
  blobType <- lift (get metadata (lit "type")) ;;
  blob <- lift (new_Blob fileContent
                  (or_else blobType (JString default_type))) ;;
  name <- lift (get metadata (lit "name")) ;;
  type <- lift (get metadata (lit "type")) ;;
  ret {| blob := blob;
         filename := or_else name (JString default_filename);
         mimeType := or_else type (JString default_type) |}.

(** *** Names for what the two functions compute on the way *)

(** The salt and the nonce [encryptFile] draws in world [w]. *)
Definition salt_of (w : World UI) : bytes := map (random w) (seq 0 SALT_LENGTH).
Definition iv_of (w : World UI) : bytes :=
  map (fun i => random w (SALT_LENGTH + i)%nat) (seq 0 IV_LENGTH).

(** The plaintext [encryptFile] assembles, and the container it returns in
    world [w]. *)
Definition plaintext_of (file : File) : bytes :=
  Uint32Array_of (Z.of_nat (length (metadataBytes_of file)))
  ++ metadataBytes_of file ++ file_bytes file.

Definition container_of (password : jsstring) (w : World UI)
    (plaintext : bytes) : bytes :=
  salt_of w ++ iv_of w
  ++ aes_gcm_encrypt (deriveKey password (salt_of w)) (iv_of w) plaintext.

Definition encrypted_of (file : File) (password : jsstring) (w : World UI)
    : bytes :=
  container_of password w (plaintext_of file).

(** The result of AES-GCM decryption inside [decryptFile]. *)
Definition decryptedData_of (file : File) (password : jsstring) : option bytes :=
  let data := file_bytes file in
  let salt := slice 0 SALT_LENGTH data in
  let iv := slice SALT_LENGTH (SALT_LENGTH + IV_LENGTH) data in
  let encryptedData := slice_from (SALT_LENGTH + IV_LENGTH) data in
  aes_gcm_decrypt (deriveKey password salt) iv encryptedData.

(** The text [decryptFile] hands to [JSON.parse]. *)
Definition metadataText_of (decryptedBytes : bytes) (metadataLength : option Z)
    : jsstring :=
  TextDecoder_decode (slice 4 (metadata_end metadataLength) decryptedBytes).

(** [metadata.key] where it does not throw. *)
Definition property (metadata : value) (key : jsstring) : option value :=
  match get metadata key with inr v => v | inl _ => None end.

(** The [type] that [decryptFile] takes from the metadata. *)
Definition type_of (metadata : value) : value :=
  or_else (property metadata (lit "type")) (JString default_type).

(** What [decryptFile] returns for a plaintext and its parsed metadata, when
    the type was converted to the string [blobType]. *)
Definition decrypted (decryptedBytes : bytes) (metadataLength : option Z)
    (metadata : value) (blobType : jsstring) : Decrypted :=
  {| blob :=
       {| blob_bytes := slice_from (metadata_end metadataLength) decryptedBytes;
          blob_type := JString blobType |};
     filename :=
       or_else (property metadata (lit "name")) (JString default_filename);
     mimeType := type_of metadata |}.

(** What decryption gives back for the container of [file]: the content,
    and the name and the type unless they are empty. *)
Definition nonempty_or (s fallback : jsstring) : value :=
  match s with
  | [] => JString fallback
  | _ :: _ => JString s
  end.

Definition restored (file : File) : Decrypted :=
  let type := nonempty_or (file_type file) default_type in
  {| blob := {| blob_bytes := file_bytes file; blob_type := type |};
     filename := nonempty_or (file_name file) default_filename;
     mimeType := type |}.

(** What the round trip of the specification promises: content, name and
    type as they were. *)
Definition original (file : File) : Decrypted :=
  {| blob := {| blob_bytes := file_bytes file;
                blob_type := JString (file_type file) |};
     filename := JString (file_name file);
     mimeType := JString (file_type file) |}.

End FileCipher.

Arguments salt_of {UI} w.
Arguments iv_of {UI} w.
Arguments container_of {P UI} password w plaintext.
Arguments encrypted_of {P UI} file password w.
Arguments encryptFile {P UI} file password onProgress.
Arguments decryptFile {P UI} file password onProgress.

(* ===================================================================== *)
(** ** [formatFileSize] *)

(** The argument is a byte count ([file.size]): a non-negative integer
    below 2^53. *)

Definition sizes : list string := ["B"; "KB"; "MB"; "GB"]%string.

(** [Math.floor(Math.log(bytes) / Math.log(1024))] for [bytes >= 1].

    [Math.log] is approximated by the engine, and the quotient of the two
    logarithms is rounded to binary64.  With logarithms accurate to an ulp
    the quotient is the exact one to within a relative error of 2^-50; it is
    exact at the powers of 1024.  So its floor is the integer logarithm to
    the base 1024, unless the byte count is less than a 2^44th of itself
    below a power of 1024: there the quotient may reach the next integer,
    and the rounding of the engine decides.  Below 2^53 there are such byte
    counts below 1024^5 alone: at 2^50 - 1 the integer logarithm is 4 and
    the engines compute 5. *)

(** The engine's part: whether the quotient reaches the next integer, for a
    byte count that close below a power of 1024. *)
Class Math : Type := {
  quotient_reaches_next : N -> bool
}.

Definition integer_logarithm (bytes : N) : N := (N.log2 bytes / 10)%N.

Definition near_next_power (bytes : N) : bool :=
  (1024 ^ (integer_logarithm bytes + 1) * 2 ^ 44 <? bytes * (2 ^ 44 + 1))%N.

Definition unit_index {M : Math} (bytes : N) : N :=
  let i := integer_logarithm bytes in
  if near_next_power bytes && quotient_reaches_next bytes
  then (i + 1)%N
  else i.

(** [sizes[i]]; [None] is [undefined]. *)
Definition sizes_at (i : N) : option string := nth_error sizes (N.to_nat i).

(** Ten times [parseFloat((bytes / Math.pow(1024, i)).toFixed(1))]: the
    quotient is exact in binary64, and [toFixed] rounds its decimal
    expansion to the nearest tenth, a tie going up. *)
Definition tenths (bytes i : N) : N :=
  ((20 * bytes + 1024 ^ i) / (2 * 1024 ^ i))%N.

Definition decimal (n : N) : string := NilZero.string_of_uint (N.to_uint n).

(** The string of a number with at most one decimal. *)
Definition number_to_string (t : N) : string :=
  let fraction :=
    if (t mod 10 =? 0)%N then EmptyString
    else String.append "." (decimal (t mod 10)) in
  String.append (decimal (t / 10)) fraction.

Definition formatFileSize {M : Math} (bytes : N) : string :=
  if (bytes =? 0)%N then "0 B"%string
  else
    let i := unit_index bytes in
    let unit_ :=
      match sizes_at i with Some u => u | None => "undefined"%string end in
    String.append (number_to_string (tenths bytes i)) (String.append " " unit_).

(* ===================================================================== *)
(** ** A reference platform

    A small platform that satisfies [PlatformOk] and evaluates inside the
    logic.  Its UTF-8 is the standard encoding; its JSON is the JSON
    grammar without numbers, written with every code unit outside printable
    ASCII escaped; its digest and cipher are checksums with the interface
    of SHA-256 and AES-GCM and none of their strength. *)

Module Reference.

Fixpoint bytes_eqb (a b : bytes) : bool :=
  match a, b with
  | [], [] => true
  | x :: a', y :: b' => Byte.eqb x y && bytes_eqb a' b'
  | _, _ => false
  end.

(** *** Digest *)

(** A non-linear shuffle of the bits of an octet. *)
Definition stir (a : byte) : byte :=
  let '(a0, (a1, (a2, (a3, (a4, (a5, (a6, a7))))))) := Byte.to_bits a in
  Byte.of_bits (a1, (a2, (a3, (a4, (a5, (a6, (a7, xorb a0 (a1 && a2)))))))).

(** Thirty-two octets that depend on the octets 0, 64 and 65 of the
    message: under HMAC these are the key and the head of the text. *)
Definition digest (m : bytes) : bytes :=
  let a := nth 0 m Byte.x00 in
  let b := nth 64 m Byte.x00 in
  let c := nth 65 m Byte.x00 in
  stir (xor8 (stir (xor8 (stir a) b)) c) :: repeat Byte.x00 31.

(** *** Authenticated cipher *)

Definition checksum (m : bytes) : byte :=
  fold_left (fun acc b => stir (xor8 acc b)) m Byte.x00.

Definition keystream (key iv : bytes) : byte :=
  xor8 (hd Byte.x00 key) (hd Byte.x00 iv).

Definition tag (key iv body : bytes) : bytes :=
  map (xor8 (checksum (iv ++ body))) (firstn 16 (key ++ repeat Byte.x00 16)).

Definition seal (key iv data : bytes) : bytes :=
  let body := map (xor8 (keystream key iv)) data in
  body ++ tag key iv body.

Definition unseal (key iv data : bytes) : option bytes :=
  if (length data <? 16)%nat then None
  else
    let body := firstn (length data - 16) data in
    let t := skipn (length data - 16) data in
    if bytes_eqb t (tag key iv body)
    then Some (map (xor8 (keystream key iv)) body)
    else None.

(** *** UTF-8 *)

Local Open Scope N_scope.

Definition REPLACEMENT : code_unit := 65533.

Definition is_high_surrogate (c : N) : bool := (55296 <=? c) && (c <=? 56319).
Definition is_low_surrogate (c : N) : bool := (56320 <=? c) && (c <=? 57343).

(** The octets of a scalar value. *)
Definition utf8_of_scalar (c : N) : bytes :=
  if c <? 128 then [byte_of_N c]
  else if c <? 2048 then
    [byte_of_N (192 + c / 64); byte_of_N (128 + c mod 64)]
  else if c <? 65536 then
    [byte_of_N (224 + c / 4096); byte_of_N (128 + c / 64 mod 64);
     byte_of_N (128 + c mod 64)]
  else
    [byte_of_N (240 + c / 262144); byte_of_N (128 + c / 4096 mod 64);
     byte_of_N (128 + c / 64 mod 64); byte_of_N (128 + c mod 64)].

(** [TextEncoder.encode]: a surrogate pair is one scalar value, a lone
    surrogate is replaced by U+FFFD. *)
Fixpoint utf8_encode (s : jsstring) : bytes :=
  match s with
  | [] => []
  | c :: r =>
    if is_high_surrogate c then
      match r with
      | d :: r' =>
        if is_low_surrogate d
        then utf8_of_scalar (65536 + (c - 55296) * 1024 + (d - 56320))
               ++ utf8_encode r'
        else utf8_of_scalar REPLACEMENT ++ utf8_encode r
      | [] => utf8_of_scalar REPLACEMENT
      end
    else if is_low_surrogate c then utf8_of_scalar REPLACEMENT ++ utf8_encode r
    else utf8_of_scalar c ++ utf8_encode r
  end%list.

Definition continuation (b : byte) : option N :=
  let n := Byte.to_N b in
  if (128 <=? n) && (n <? 192) then Some (n - 128) else None.

(** The code units of a scalar value. *)
Definition utf16_of_scalar (c : N) : jsstring :=
  if c <? 65536 then [c]
  else [55296 + (c - 65536) / 1024; 56320 + (c - 65536) mod 1024].

(** UTF-8 decoding; an octet that starts no well-formed sequence is
    replaced by U+FFFD. *)
Fixpoint utf8_decode (b : bytes) : jsstring :=
  match b with
  | [] => []
  | x :: r =>
    let n := Byte.to_N x in
    if n <? 128 then n :: utf8_decode r
    else
      match r with
      | y :: r1 =>
        match continuation y with
        | None => REPLACEMENT :: utf8_decode r
        | Some cy =>
          if (194 <=? n) && (n <? 224)
          then ((n - 192) * 64 + cy) :: utf8_decode r1
          else
            match r1 with
            | z :: r2 =>
              match continuation z with
              | None => REPLACEMENT :: utf8_decode r
              | Some cz =>
                let c3 := (n - 224) * 4096 + cy * 64 + cz in
                if (224 <=? n) && (n <? 240) && (2048 <=? c3)
                   && negb (is_high_surrogate c3 || is_low_surrogate c3)
                then c3 :: utf8_decode r2
                else
                  match r2 with
                  | t :: r3 =>
                    match continuation t with
                    | None => REPLACEMENT :: utf8_decode r
                    | Some ct =>
                      let c4 :=
                        (n - 240) * 262144 + cy * 4096 + cz * 64 + ct in
                      if (240 <=? n) && (n <? 245) && (65536 <=? c4)
                         && (c4 <? 1114112)
                      then (utf16_of_scalar c4 ++ utf8_decode r3)%list
                      else REPLACEMENT :: utf8_decode r
                    end
                  | [] => REPLACEMENT :: utf8_decode r
                  end
              end
            | [] => REPLACEMENT :: utf8_decode r
            end
        end
      | [] => [REPLACEMENT]
      end
  end.

(** [TextDecoder.decode] drops a leading byte order mark. *)
Definition strip_bom (b : bytes) : bytes :=
  match b with
  | x :: y :: z :: r =>
    if bytes_eqb [x; y; z] [Byte.xef; Byte.xbb; Byte.xbf] then r else b
  | _ => b
  end.

Definition decode (b : bytes) : jsstring := utf8_decode (strip_bom b).

(** *** JSON *)

Definition hexdigit (d : N) : code_unit := if d <? 10 then 48 + d else 87 + d.

Definition hex4 (c : N) : jsstring :=
  [hexdigit (c / 4096 mod 16); hexdigit (c / 256 mod 16);
   hexdigit (c / 16 mod 16); hexdigit (c mod 16)].

(** A code unit inside a JSON string: the quote and the backslash are
    escaped, and so is every code unit outside printable ASCII, as a
    [\uXXXX] escape.  (ECMAScript leaves more code units as they are; a
    JSON parser reads both spellings alike.) *)
Definition escape (c : code_unit) : jsstring :=
  if c =? 34 then [92; 34]
  else if c =? 92 then [92; 92]
  else if (c <? 32) || (127 <=? c) then 92 :: 117 :: hex4 c
  else [c].

Definition quote (s : jsstring) : jsstring :=
  (34 :: flat_map escape s ++ [34])%list.

Fixpoint stringify (v : value) : jsstring :=
  match v with
  | JNull => lit "null"
  | JBool true => lit "true"
  | JBool false => lit "false"
  | JNumber _ => lit "null"
  | JString s => quote s
  | JArray items =>
    91 :: (fix elements (l : list value) : jsstring :=
             match l with
             | [] => []
             | x :: l' =>
               stringify x
               ++ match l' with [] => [] | _ => 44 :: elements l' end
             end) items ++ [93]
  | JObject props =>
    123 :: (fix members (l : list (jsstring * value)) : jsstring :=
              match l with
              | [] => []
              | (k, x) :: l' =>
                quote k ++ 58 :: stringify x
                ++ match l' with [] => [] | _ => 44 :: members l' end
              end) props ++ [125]
  end%list.

Definition hexval (c : code_unit) : option N :=
  if (48 <=? c) && (c <=? 57) then Some (c - 48)
  else if (97 <=? c) && (c <=? 102) then Some (c - 87)
  else if (65 <=? c) && (c <=? 70) then Some (c - 55)
  else None.

Definition hex4_value (a b c d : code_unit) : option N :=
  match hexval a, hexval b, hexval c, hexval d with
  | Some x, Some y, Some z, Some t => Some (x * 4096 + y * 256 + z * 16 + t)
  | _, _, _, _ => None
  end.

Definition unescape (e : code_unit) : option code_unit :=
  if e =? 34 then Some 34 else if e =? 92 then Some 92
  else if e =? 47 then Some 47 else if e =? 98 then Some 8
  else if e =? 102 then Some 12 else if e =? 110 then Some 10
  else if e =? 114 then Some 13 else if e =? 116 then Some 9
  else None.

Definition cons_fst {A B} (a : A) (r : option (list A * B)) : option (list A * B) :=
  match r with Some (l, b) => Some (a :: l, b) | None => None end.

(** The characters of a string up to its closing quote, and what follows. *)
Fixpoint parse_chars (s : jsstring) : option (jsstring * jsstring) :=
  match s with
  | [] => None
  | c :: r =>
    if c =? 34 then Some ([], r)
    else if c =? 92 then
      match r with
      | e :: r1 =>
        if e =? 117 then
          match r1 with
          | h1 :: h2 :: h3 :: h4 :: r2 =>
            match hex4_value h1 h2 h3 h4 with
            | Some u => cons_fst u (parse_chars r2)
            | None => None
            end
          | _ => None
          end
        else
          match unescape e with
          | Some u => cons_fst u (parse_chars r1)
          | None => None
          end
      | [] => None
      end
    else if c <? 32 then None
    else cons_fst c (parse_chars r)
  end.

Definition is_ws (c : code_unit) : bool :=
  (c =? 32) || (c =? 9) || (c =? 10) || (c =? 13).

Fixpoint skip_ws (s : jsstring) : jsstring :=
  match s with
  | c :: r => if is_ws c then skip_ws r else s
  | [] => []
  end.

Fixpoint strip_prefix (p s : jsstring) : option jsstring :=
  match p, s with
  | [], _ => Some s
  | a :: p', b :: s' => if a =? b then strip_prefix p' s' else None
  | _ :: _, [] => None
  end.

(** A later member of the same name replaces the earlier value. *)
Fixpoint set_prop (k : jsstring) (v : value) (props : list (jsstring * value))
    : list (jsstring * value) :=
  match props with
  | [] => [(k, v)]
  | (k', v') :: rest =>
    if jsstring_eqb k' k then (k', v) :: rest else (k', v') :: set_prop k v rest
  end.

(** Recursive descent; [fuel] bounds the nesting and the number of members.
    Numbers are not read. *)
Fixpoint parse_value (fuel : nat) (s : jsstring) {struct fuel}
    : option (value * jsstring) :=
  match fuel with
  | O => None
  | S fuel' =>
    match skip_ws s with
    | [] => None
    | c :: r =>
      if c =? 34 then
        match parse_chars r with
        | Some (str, rest) => Some (JString str, rest)
        | None => None
        end
      else if c =? 123 then
        match skip_ws r with
        | c' :: r' =>
          if c' =? 125 then Some (JObject [], r')
          else parse_members fuel' (c' :: r') []
        | [] => None
        end
      else if c =? 91 then
        match skip_ws r with
        | c' :: r' =>
          if c' =? 93 then Some (JArray [], r')
          else parse_elements fuel' (c' :: r') []
        | [] => None
        end
      else
        match strip_prefix (lit "null") (c :: r),
              strip_prefix (lit "true") (c :: r),
              strip_prefix (lit "false") (c :: r) with
        | Some rest, _, _ => Some (JNull, rest)
        | _, Some rest, _ => Some (JBool true, rest)
        | _, _, Some rest => Some (JBool false, rest)
        | _, _, _ => None
        end
    end
  end
with parse_members (fuel : nat) (s : jsstring)
    (acc : list (jsstring * value)) {struct fuel}
    : option (value * jsstring) :=
  match fuel with
  | O => None
  | S fuel' =>
    match skip_ws s with
    | c :: r =>
      if c =? 34 then
        match parse_chars r with
        | Some (k, rest) =>
          match skip_ws rest with
          | colon :: rest1 =>
            if colon =? 58 then
              match parse_value fuel' rest1 with
              | Some (v, rest2) =>
                match skip_ws rest2 with
                | d :: rest3 =>
                  if d =? 44 then parse_members fuel' rest3 (set_prop k v acc)
                  else if d =? 125 then Some (JObject (set_prop k v acc), rest3)
                  else None
                | [] => None
                end
              | None => None
              end
            else None
          | [] => None
          end
        | None => None
        end
      else None
    | [] => None
    end
  end
with parse_elements (fuel : nat) (s : jsstring) (acc : list value)
    {struct fuel} : option (value * jsstring) :=
  match fuel with
  | O => None
  | S fuel' =>
    match parse_value fuel' s with
    | Some (v, rest) =>
      match skip_ws rest with
      | d :: rest1 =>
        if d =? 44 then parse_elements fuel' rest1 (acc ++ [v])%list
        else if d =? 93 then Some (JArray (acc ++ [v])%list, rest1)
        else None
      | [] => None
      end
    | None => None
    end
  end.

Definition parse (s : jsstring) : option value :=
  match parse_value (S (length s)) s with
  | Some (v, rest) => match skip_ws rest with [] => Some v | _ => None end
  | None => None
  end.

Local Close Scope N_scope.

#[export] Instance platform : Platform := {|
  sha256 := digest;
  aes_gcm_encrypt := seal;
  aes_gcm_decrypt := unseal;
  JSON_stringify := stringify;
  JSON_parse := parse;
  TextEncoder_encode := utf8_encode;
  TextDecoder_decode := decode;
  Number_toString := fun _ => lit "NaN"   (* no number is ever parsed *)
|}.

(** An engine whose quotient reaches 5 for the three byte counts below
    1024^5, and one whose quotient never reaches the next integer. *)
#[export] Instance math : Math := {|
  quotient_reaches_next := fun bytes => (1024 ^ 5 - 4 <? bytes)%N
|}.

Definition exact_math : Math := {|
  quotient_reaches_next := fun _ => false
|}.

(** The same platform with a cipher whose tag covers the whole key: it
    rejects a ciphertext under every key but its own. *)
Definition tag_of_key (key iv body : bytes) : bytes :=
  map (xor8 (checksum (iv ++ body))) key.

Definition seal_with_key (key iv data : bytes) : bytes :=
  let body := map (xor8 (keystream key iv)) data in
  body ++ tag_of_key key iv body.

Definition unseal_with_key (key iv data : bytes) : option bytes :=
  if (length data <? 16)%nat || (length data <? length key)%nat then None
  else
    let body := firstn (length data - length key) data in
    let t := skipn (length data - length key) data in
    if bytes_eqb t (tag_of_key key iv body)
    then Some (map (xor8 (keystream key iv)) body)
    else None.

Definition strict_platform : Platform := {|
  sha256 := digest;
  aes_gcm_encrypt := seal_with_key;
  aes_gcm_decrypt := unseal_with_key;
  JSON_stringify := stringify;
  JSON_parse := parse;
  TextEncoder_encode := utf8_encode;
  TextDecoder_decode := decode;
  Number_toString := fun _ => lit "NaN"
|}.

(** A JSON text written with apostrophes for its quotation marks. *)
Definition json (s : string) : jsstring :=
  map (fun c => if (c =? 39)%N then 34%N else c) (lit s).

(** *** Inputs for examples *)

(** A callback that records the values it is given. *)
Definition recorder : callback (list Z) := fun p log => (log ++ [p])%list.

Definition world0 : World (list Z) :=
  {| ui := []; random := fun i => byte_of_N (N.of_nat (7 * i + 3)) |}.

Definition a_txt : File :=
  {| file_name := lit "a.txt"; file_type := lit "text/plain";
     file_bytes := [Byte.x41; Byte.x42; Byte.x43] |}.

(** A file without a name and without a type. *)
Definition anonymous : File :=
  {| file_name := []; file_type := [];
     file_bytes := [Byte.x41; Byte.x42; Byte.x43] |}.

(** The file a user selects for decryption. *)
Definition received (data : bytes) : File :=
  {| file_name := lit "a.txt.encrypted"; file_type := [];
     file_bytes := data |}.

(** An inner plaintext whose metadata has no [name], and one whose length
    prefix (1000) exceeds what follows. *)
Definition plaintext_without_name : bytes :=
  let metadata := utf8_encode (json "{'type':'text/plain'}") in
  (Uint32Array_of (Z.of_nat (length metadata)) ++ metadata
   ++ [Byte.x41; Byte.x42; Byte.x43])%list.

Definition plaintext_with_long_prefix : bytes :=
  (Uint32Array_of 1000 ++ utf8_encode (json "{'name':'a.txt'}"))%list.

(** An inner plaintext whose metadata has no [name] and holds, for the
    type, an object with a property [toString] that is no function. *)
Definition plaintext_with_unconvertible_type : bytes :=
  let metadata := utf8_encode (json "{'type':{'toString':null}}") in
  (Uint32Array_of (Z.of_nat (length metadata)) ++ metadata
   ++ [Byte.x41; Byte.x42; Byte.x43])%list.

(** Inner plaintexts that [decryptFile] cannot unpack: too short for the
    length prefix, metadata that is no JSON text, metadata that is
    [null]. *)
Definition plaintext_of_two_octets : bytes := [Byte.x01; Byte.x02].

Definition plaintext_without_json : bytes :=
  (Uint32Array_of 2 ++ utf8_encode (lit "hi"))%list.

Definition plaintext_with_null : bytes :=
  (Uint32Array_of 4 ++ utf8_encode (lit "null"))%list.

Definition correct_horse : jsstring := lit "correct horse".
Definition wrong_horse : jsstring := lit "wrong horse".

(** The keys the two passwords derive with the salt of [world0]. *)
Definition key_of_correct_horse : bytes := Byte.x66 :: repeat Byte.x00 31.
Definition key_of_wrong_horse : bytes := Byte.xb6 :: repeat Byte.x00 31.

End Reference.


(* ===================================================================== *)
(** ** [getPasswordStrength] and the strength meter
    (components/PasswordInput.tsx) *)

(** The character classes of the regular expressions, over code units. *)
Definition in_range (lo hi c : code_unit) : bool :=
  ((lo <=? c) && (c <=? hi))%N.

Definition upper (c : code_unit) : bool := in_range 65%N 90%N c.    (* [A-Z] *)
Definition lower (c : code_unit) : bool := in_range 97%N 122%N c.   (* [a-z] *)
Definition digit (c : code_unit) : bool := in_range 48%N 57%N c.    (* [0-9] *)
(** [[^A-Za-z0-9]] *)
Definition symbol (c : code_unit) : bool :=
  negb (upper c || lower c || digit c).

(** [/[class]/.test(s)]: some code unit of [s] is in the class. *)
Definition test (class : code_unit -> bool) (s : jsstring) : bool :=
  existsb class s.

Record Strength : Type := {
  level : nat;
  label : jsstring;
  color : jsstring;
  textColor : jsstring
}.

(** [if (b) score++] *)
Definition incr (b : bool) (score : nat) : nat :=
  if b then S score else score.

Definition score_of (password : jsstring) : nat :=
  let score := 0%nat in
  let score := incr (8 <=? length password)%nat score in
  let score := incr (12 <=? length password)%nat score in
  let score := incr (test upper password && test lower password) score in
  let score := incr (test digit password) score in
  let score := incr (test symbol password) score in
  score.

Definition getPasswordStrength (password : jsstring) : Strength :=
  match password with
  | [] => {| level := 0; label := []; color := []; textColor := [] |}
  | _ :: _ =>
    let score := score_of password in
    if (score <=? 1)%nat then
      {| level := 1; label := lit "D" ++ [233%N] ++ lit "bil";
         color := lit "bg-destructive"; textColor := lit "text-destructive" |}
    else if (score <=? 2)%nat then
      {| level := 2; label := lit "Regular";
         color := lit "bg-orange-500"; textColor := lit "text-orange-500" |}
    else if (score <=? 3)%nat then
      {| level := 3; label := lit "Buena";
         color := lit "bg-yellow-500"; textColor := lit "text-yellow-500" |}
    else
      {| level := 4; label := lit "Excelente";
         color := lit "bg-accent"; textColor := lit "text-accent" |}
  end.

(** The meter of [PasswordInput] (lines 50-73): nothing for the empty
    value; otherwise four bars, bar [n] in the colour of the strength when
    [n <= strength.level] and in [bg-muted] when not, and the label. *)
Definition bars (strength : Strength) : list jsstring :=
  map (fun n => if (n <=? level strength)%nat then color strength
                else lit "bg-muted")
      [1; 2; 3; 4]%nat.

Definition meter (value : jsstring) : option (list jsstring * jsstring) :=
  match value with
  | [] => None
  | _ :: _ =>
    let strength := getPasswordStrength value in
    Some (bars strength, label strength)
  end.

(* ===================================================================== *)
(** ** [FileDropZone]: the handlers of the drop zone *)

Module DropZone.

(** The state the handlers act on: [isDragging] is the component's own,
    [file] is the property of the parent, changed through
    [onFileSelect]. *)
Record State : Type := {
  isDragging : bool;
  file : option File
}.

Definition setIsDragging (x : bool) (s : State) : State :=
  {| isDragging := x; file := file s |}.
Definition onFileSelect (x : option File) (s : State) : State :=
  {| isDragging := isDragging s; file := x |}.

Definition handleDragOver (disabled : bool) (s : State) : State :=
  if negb disabled then setIsDragging true s else s.

Definition handleDragLeave (s : State) : State := setIsDragging false s.

(** [files] is [e.dataTransfer.files]. *)
Definition handleDrop (disabled : bool) (files : list File) (s : State)
    : State :=
  let s := setIsDragging false s in
  if disabled then s
  else
    match files with
    | droppedFile :: _ => onFileSelect (Some droppedFile) s
    | [] => s
    end.

(** [files] is [e.target.files], which may be [null]. *)
Definition handleFileInput (files : option (list File)) (s : State) : State :=
  match files with
  | Some (selectedFile :: _) => onFileSelect (Some selectedFile) s
  | _ => s
  end.

Definition handleRemove (s : State) : State := onFileSelect None s.

(** What the user can do to the zone. *)
Inductive Event : Type :=
| dragOver
| dragLeave
| drop (files : list File)
| change (files : option (list File))
| remove.

(** The handler an event reaches.  The drag events reach theirs always.
    The input is rendered with [disabled={disabled || !!file}], and a
    disabled input fires no change event; the button that removes the file
    is rendered when there is a file and the zone is not disabled. *)
Definition dispatch (disabled : bool) (e : Event) (s : State) : State :=
  match e with
  | dragOver => handleDragOver disabled s
  | dragLeave => handleDragLeave s
  | drop files => handleDrop disabled files s
  | change files =>
    match file s with
    | None => if disabled then s else handleFileInput files s
    | Some _ => s
    end
  | remove =>
    match file s with
    | Some _ => if negb disabled then handleRemove s else s
    | None => s
    end
  end.

Definition run (disabled : bool) (events : list Event) (s : State) : State :=
  fold_left (fun s e => dispatch disabled e s) events s.

End DropZone.

(* ===================================================================== *)
(** ** The outcomes of [decryptFile] *)

Section Outcome.
Context {P : Platform}.

(** The progress values [decryptFile] reports and what it returns or
    throws, read off its body: both depend on the file and the password
    alone. *)
Definition outcome_of (file : File) (password : jsstring)
    : list Z * (exn + Decrypted) :=
  match decryptedData_of file password with
  | None => ([10; 20; 30; 50], inl (Error wrong_password_or_corrupt))
  | Some decryptedBytes =>
    match metadataLength_of decryptedBytes with
    | inl e => ([10; 20; 30; 50; 70], inl e)
    | inr metadataLength =>
      match JSON_parse (metadataText_of decryptedBytes metadataLength) with
      | None => ([10; 20; 30; 50; 70], inl SyntaxError)
      | Some JNull => ([10; 20; 30; 50; 70; 100], inl TypeError)
      | Some metadata =>
        match ToString (type_of metadata) with
        | inl e => ([10; 20; 30; 50; 70; 100], inl e)
        | inr blobType =>
          ([10; 20; 30; 50; 70; 100],
           inr (decrypted decryptedBytes metadataLength metadata blobType))
        end
      end
    end
  end.

End Outcome.

(* ===================================================================== *)
(** ** The application: [handleProcess], [canProcess], [downloadBlob]
    (the [EncryptionApp] component) *)

Module App.

Local Open Scope cipher_scope.

Inductive Mode : Type := encrypt | decrypt.

Inductive Status : Type := idle | processing | success | error_status.

(** The state of the component, one field for each [useState]. *)
Record State : Type := {
  mode : Mode;
  file : option File;
  password : jsstring;
  status : Status;
  progress : Z;
  error : option jsstring
}.

Definition setMode (x : Mode) (s : State) : State :=
  {| mode := x; file := file s; password := password s;
     status := status s; progress := progress s; error := error s |}.
Definition setFile (x : option File) (s : State) : State :=
  {| mode := mode s; file := x; password := password s;
     status := status s; progress := progress s; error := error s |}.
Definition setPassword (x : jsstring) (s : State) : State :=
  {| mode := mode s; file := file s; password := x;
     status := status s; progress := progress s; error := error s |}.
Definition setStatus (x : Status) (s : State) : State :=
  {| mode := mode s; file := file s; password := password s;
     status := x; progress := progress s; error := error s |}.
Definition setProgress (x : Z) (s : State) : State :=
  {| mode := mode s; file := file s; password := password s;
     status := status s; progress := x; error := error s |}.
Definition setError (x : option jsstring) (s : State) : State :=
  {| mode := mode s; file := file s; password := password s;
     status := status s; progress := progress s; error := x |}.

(** What the code touches of the browser: the component's state, the
    children of [document.body] and the blob URL store (nodes and URLs by
    identity, [fresh] being the next identity), the downloads started (the
    blob and the name suggested), and the callbacks [setTimeout] queued
    with their delays. *)
Record Browser : Type := {
  state : State;
  body : list nat;
  objectURLs : list (nat * Blob);
  fresh : nat;
  downloads : list (Blob * value);
  timers : list (Z * (State -> State))
}.

Definition on_state (f : State -> State) (b : Browser) : Browser :=
  {| state := f (state b); body := body b; objectURLs := objectURLs b;
     fresh := fresh b; downloads := downloads b; timers := timers b |}.

(** The messages of the errors the engine builds. *)
Class Engine : Type := {
  (** [err.message] of a RangeError, SyntaxError or TypeError *)
  native_message : exn -> jsstring;
  (** the message of the NotFoundError of [removeChild] *)
  NotFoundError_message : jsstring
}.

Section Component.
Context {P : Platform} {E : Engine}.

Definition update (f : Browser -> Browser) : M Browser unit :=
  fun w => ({| ui := f (ui w); random := random w |}, inr tt).

(** [URL.createObjectURL(blob)] *)
Definition createObjectURL (blob : Blob) : M Browser nat :=
  fun w =>
    let b := ui w in
    ({| ui := {| state := state b; body := body b;
                 objectURLs := (fresh b, blob) :: objectURLs b;
                 fresh := S (fresh b);
                 downloads := downloads b; timers := timers b |};
        random := random w |},
     inr (fresh b)).

(** [document.createElement('a')]: a new node, in no document yet. *)
Definition createElement : M Browser nat :=
  fun w =>
    let b := ui w in
    ({| ui := {| state := state b; body := body b;
                 objectURLs := objectURLs b; fresh := S (fresh b);
                 downloads := downloads b; timers := timers b |};
        random := random w |},
     inr (fresh b)).

(** [document.body.appendChild(node)] for a node that is in no document. *)
Definition appendChild (node : nat) : M Browser unit :=
  update (fun b =>
    {| state := state b; body := body b ++ [node];
       objectURLs := objectURLs b; fresh := fresh b;
       downloads := downloads b; timers := timers b |}).

Fixpoint resolve (url : nat) (store : list (nat * Blob)) : option Blob :=
  match store with
  | [] => None
  | (u, blob) :: rest => if (u =? url)%nat then Some blob else resolve url rest
  end.

(** [a.click()] on an anchor with [href] and [download] set: the blob
    behind the URL is downloaded under the name given; a URL that resolves
    to nothing downloads nothing. *)
Definition click (href : nat) (download : value) : M Browser unit :=
  update (fun b =>
    match resolve href (objectURLs b) with
    | Some blob =>
      {| state := state b; body := body b; objectURLs := objectURLs b;
         fresh := fresh b; downloads := downloads b ++ [(blob, download)];
         timers := timers b |}
    | None => b
    end).

(** [document.body.removeChild(node)]: a NotFoundError when the node is no
    child of the body. *)
Definition removeChild (node : nat) : M Browser unit :=
  fun w =>
    if existsb (Nat.eqb node) (body (ui w))
    then update (fun b =>
           {| state := state b;
              body := filter (fun n => negb (n =? node)%nat) (body b);
              objectURLs := objectURLs b; fresh := fresh b;
              downloads := downloads b; timers := timers b |}) w
    else (w, inl (Error NotFoundError_message)).

(** [URL.revokeObjectURL(url)] *)
Definition revokeObjectURL (url : nat) : M Browser unit :=
  update (fun b =>
    {| state := state b; body := body b;
       objectURLs :=
         filter (fun entry => negb (fst entry =? url)%nat) (objectURLs b);
       fresh := fresh b; downloads := downloads b; timers := timers b |}).

(** [setTimeout(callback, delay)] *)
Definition setTimeout (callback : State -> State) (delay : Z)
    : M Browser unit :=
  update (fun b =>
    {| state := state b; body := body b; objectURLs := objectURLs b;
       fresh := fresh b; downloads := downloads b;
       timers := timers b ++ [(delay, callback)] |}).

(** [a.download = filename] converts what it is given to a string, as the
    attribute is one; a value that has no string ends the function there,
    with the URL created and not revoked. *)
Definition downloadBlob (blob : Blob) (filename : value) : M Browser unit :=
  url <- createObjectURL blob ;;
  a <- createElement ;;
  let href := url in
  download <- lift (ToString filename) ;;
  appendChild a ;;
  click href (JString download) ;;
  removeChild a ;;
  revokeObjectURL url.

(** [try { m } catch (err) { handler err }] *)
Definition try_catch {A} (m : M Browser A) (handler : exn -> M Browser A)
    : M Browser A :=
  fun w => match m w with
           | (w', inl err) => handler err w'
           | (w', inr a) => (w', inr a)
           end.

(** [err.message]; everything the code throws is an instance of [Error],
    so that the text ['Error desconocido'] is never taken. *)
Definition message_of (err : exn) : jsstring :=
  match err with
  | Error message => message
  | _ => native_message err
  end.

(** The component's [setProgress], as the [onProgress] of the cipher. *)
Definition onProgress : option (callback Browser) :=
  Some (fun p => on_state (setProgress p)).

(** The callbacks of the two timers. *)
Definition after_success (s : State) : State :=
  setPassword [] (setFile None (setStatus idle s)).
Definition after_error (s : State) : State := setStatus idle s.

Definition handleProcess : M Browser unit :=
  fun w =>
    let s := state (ui w) in
    match file s, password s with
    | Some file, _ :: _ =>
      (update (on_state (setStatus processing)) ;;
       update (on_state (setProgress 0)) ;;
       update (on_state (setError None)) ;;
       try_catch
         (match mode s with
          | encrypt =>
            encryptedBlob <- encryptFile file (password s) onProgress ;;
            downloadBlob encryptedBlob
              (JString (file_name file ++ lit ".encrypted"))
          | decrypt =>
            result <- decryptFile file (password s) onProgress ;;
            downloadBlob (blob result) (filename result)
          end ;;
          update (on_state (setStatus success)) ;;
          setTimeout after_success 2000)
         (fun err =>
            update (on_state (setError (Some (message_of err)))) ;;
            update (on_state (setStatus error_status)) ;;
            setTimeout after_error 3000)) w
    | _, _ => (w, inr tt)
    end.

End Component.

(** [canProcess]: what enables the button that calls [handleProcess]. *)
Definition canProcess (s : State) : bool :=
  match file s, status s with
  | Some _, idle => (4 <=? length (password s))%nat
  | _, _ => false
  end.

(** The browser runs the oldest queued timer. *)
Definition fire (b : Browser) : Browser :=
  match timers b with
  | [] => b
  | (_, callback) :: rest =>
    {| state := callback (state b); body := body b;
       objectURLs := objectURLs b; fresh := fresh b;
       downloads := downloads b; timers := rest |}
  end.

(** The browser after a run of [handleProcess] that ended in [download],
    and after one that failed with [message] when the progress was [p]. *)
Definition succeeded (b : Browser) (download : Blob * value) : Browser :=
  {| state := {| mode := mode (state b); file := file (state b);
                 password := password (state b); status := success;
                 progress := 100; error := None |};
     body := body b; objectURLs := objectURLs b;
     fresh := S (S (fresh b));
     downloads := downloads b ++ [download];
     timers := timers b ++ [(2000, after_success)] |}.

Definition failed (b : Browser) (message : jsstring) (p : Z) : Browser :=
  {| state := {| mode := mode (state b); file := file (state b);
                 password := password (state b); status := error_status;
                 progress := p; error := Some message |};
     body := body b; objectURLs := objectURLs b; fresh := fresh b;
     downloads := downloads b;
     timers := timers b ++ [(3000, after_error)] |}.

(** The browser when [downloadBlob] has created the URL of [blob] and the
    anchor, and nothing more. *)
Definition leaked (b : Browser) (blob : Blob) : Browser :=
  {| state := state b; body := body b;
     objectURLs := (fresh b, blob) :: objectURLs b;
     fresh := S (S (fresh b));
     downloads := downloads b; timers := timers b |}.

(** What is rendered under the password (lines 256-290): the bar while the
    status is ['processing'], the panel of success while it is ['success'],
    the message while it is ['error'] and the message is not empty. *)
Inductive Panel : Type :=
| progress_bar (p : Z)
| success_panel
| error_panel (message : jsstring).

Definition panel (s : State) : option Panel :=
  match status s with
  | processing => Some (progress_bar (progress s))
  | success => Some success_panel
  | error_status =>
    match error s with
    | Some (c :: message) => Some (error_panel (c :: message))
    | _ => None
    end
  | idle => None
  end.

(** What the user does between two runs: the click on a mode button (lines
    208-213), the selection of a file, the typing of a password. *)
Definition selectMode (m : Mode) (s : State) : State :=
  setError None (setPassword [] (setFile None (setMode m s))).

(** The file the user selects when it is one they downloaded: the content
    is the blob's; the name and the type are what the file system and the
    browser make of it. *)
Definition saved (download : Blob * value) (name type : jsstring) : File :=
  {| file_name := name; file_type := type;
     file_bytes := blob_bytes (fst download) |}.

(** No node and no URL has an identity that is still to be given. *)
Definition well_formed (b : Browser) : Prop :=
  Forall (fun n => (n < fresh b)%nat) (body b)
  /\ Forall (fun entry => (fst entry < fresh b)%nat) (objectURLs b).

End App.

(** *** Inputs for examples of the application *)

Module Examples.
Import Reference.

#[export] Instance engine : App.Engine := {|
  App.native_message := fun err =>
    match err with
    | RangeError => lit "Invalid typed array length"
    | SyntaxError => lit "Unexpected end of JSON input"
    | _ => lit "Cannot read properties of null"
    end;
  App.NotFoundError_message := lit "The node is not a child of this node"
|}.

(** A page with two nodes in its body, idle, with a file selected and a
    password typed. *)
Definition browser0 (m : App.Mode) (f : File) (p : jsstring) : App.Browser :=
  {| App.state := {| App.mode := m; App.file := Some f; App.password := p;
                     App.status := App.idle; App.progress := 0;
                     App.error := None |};
     App.body := [0; 1]%nat; App.objectURLs := []; App.fresh := 2;
     App.downloads := []; App.timers := [] |}.

(** An inner plaintext whose metadata holds an array for the name and
    [false] for the type. *)
Definition plaintext_with_untyped_fields : bytes :=
  let metadata := utf8_encode (json "{'name':['x'],'type':false}") in
  (Uint32Array_of (Z.of_nat (length metadata)) ++ metadata
   ++ [Byte.x41; Byte.x42; Byte.x43])%list.

End Examples.

(* ===================================================================== *)
(** * Properties *)

(** ** Typed arrays *)

Lemma Uint8Array_set_fill (pre src : bytes) (n : nat) :
  Uint8Array_set (pre ++ repeat Byte.x00 (length src + n)) src (length pre)
  = inr (pre ++ src ++ repeat Byte.x00 n).
Proof.
  unfold Uint8Array_set.
  rewrite length_app, repeat_length.
  destruct (Nat.leb_spec (length pre + length src)
                         (length pre + (length src + n))) as [_ | Hlt];
    [ | lia ].
  f_equal.
  rewrite firstn_app, firstn_all, Nat.sub_diag, firstn_O, app_nil_r.
  rewrite skipn_app, skipn_all2 by lia.
  replace (length pre + length src - length pre)%nat with (length src) by lia.
  rewrite repeat_app, skipn_app, repeat_length, Nat.sub_diag, skipn_O.
  rewrite skipn_all2 by (rewrite repeat_length; lia).
  reflexivity.
Qed.

Lemma Uint8Array_fill3 (a b c : bytes) :
  bind_exn (Uint8Array_set
              (Uint8Array_new (length a + length b + length c)) a 0)
    (fun buffer =>
       bind_exn (Uint8Array_set buffer b (length a))
         (fun buffer => Uint8Array_set buffer c (length a + length b)))
  = inr (a ++ b ++ c).
Proof.
  unfold Uint8Array_new.
  rewrite <- Nat.add_assoc.
  pose proof (Uint8Array_set_fill [] a (length b + length c)) as Ha.
  cbn [app length] in Ha. rewrite Ha. cbn [bind_exn].
  rewrite (Uint8Array_set_fill a b (length c)). cbn [bind_exn].
  replace (a ++ b ++ repeat Byte.x00 (length c))
    with ((a ++ b) ++ repeat Byte.x00 (length c + 0))
    by (rewrite Nat.add_0_r, app_assoc; reflexivity).
  rewrite <- length_app.
  rewrite (Uint8Array_set_fill (a ++ b) c 0). cbn [repeat].
  rewrite app_nil_r, <- app_assoc. reflexivity.
Qed.

Lemma Uint32Array_of_length (n : Z) : length (Uint32Array_of n) = 4%nat.
Proof. apply length_le_split. Qed.

Lemma Uint32Array_first_of (n : Z) (rest : bytes) :
  Uint32Array_first (slice 0 4 (Uint32Array_of n ++ rest))
  = inr (Some (n mod 2 ^ 32)).
Proof.
  unfold slice. rewrite skipn_O, Nat.sub_0_r.
  rewrite firstn_app, Uint32Array_of_length, Nat.sub_diag, firstn_O, app_nil_r.
  rewrite firstn_all2 by (rewrite Uint32Array_of_length; lia).
  unfold Uint32Array_first. rewrite Uint32Array_of_length. cbn [Nat.modulo Nat.eqb].
  change (4 mod 4 =? 0)%nat with true. cbv iota.
  assert (H : le_combine (firstn 4 (Uint32Array_of n)) = n mod 2 ^ 32).
  { rewrite firstn_all2 by (rewrite Uint32Array_of_length; lia).
    unfold Uint32Array_of. rewrite le_combine_split.
    change (Z.of_nat 4 * 8) with 32. apply Z.mod_mod. lia. }
  destruct (Uint32Array_of n) eqn:E.
  - apply (f_equal (@length _)) in E. rewrite Uint32Array_of_length in E.
    discriminate.
  - rewrite H. reflexivity.
Qed.

(** ** Key derivation *)

Lemma xor_bytes_length (a b : bytes) :
  length (xor_bytes a b) = Nat.min (length a) (length b).
Proof.
  revert b; induction a as [| x a IH]; intros [| y b]; cbn; auto.
Qed.

(** Iterating along a cycle: only the remainder of the count matters. *)
Lemma iter_multiple {A : Type} (f : A -> A) (x : A) (p q : N) :
  N.iter p f x = x -> N.iter (q * p) f x = x.
Proof.
  intros H. induction q as [| q IH] using N.peano_ind.
  - reflexivity.
  - rewrite N.mul_succ_l, N.iter_add, H. exact IH.
Qed.

Lemma iter_periodic {A : Type} (f : A -> A) (x : A) (p n : N) :
  N.iter p f x = x -> N.iter n f x = N.iter (n mod p) f x.
Proof.
  intros H.
  replace (N.iter n f x) with (N.iter (n mod p + n / p * p) f x)
    by (f_equal; rewrite (N.Div0.div_mod n p) at 3; lia).
  rewrite N.iter_add, (iter_multiple f x p _ H).
  reflexivity.
Qed.

Section KeyDerivationFacts.
Context {P : Platform} {ok : PlatformOk P}.

Lemma HMAC_of_pads_length (pads : bytes * bytes) (text : bytes) :
  length (HMAC_of_pads pads text) = 32%nat.
Proof. apply sha256_length. Qed.

Lemma PBKDF2_F_length (K0 S : bytes) (c : N) (i : Z) :
  length (PBKDF2_F K0 S c i) = 32%nat.
Proof.
  unfold PBKDF2_F.
  apply (N.iter_invariant (c - 1) _ (PBKDF2_step (HMAC_pads K0))
           (fun UT => length (snd UT) = 32%nat)).
  - intros [U T] HT. cbn [PBKDF2_step fst snd] in *.
    rewrite xor_bytes_length, HT, HMAC_of_pads_length. reflexivity.
  - apply HMAC_of_pads_length.
Qed.

Lemma deriveKey_length (password : jsstring) (salt : bytes) :
  length (deriveKey password salt) = 32%nat.
Proof.
  unfold deriveKey, PBKDF2.
  change (Z.to_nat (KEY_LENGTH / 8)) with 32%nat.
  change ((32 + 31) / 32)%nat with 1%nat.
  cbn [seq flat_map]. rewrite app_nil_r.
  rewrite firstn_all2 by (rewrite PBKDF2_F_length; lia).
  apply PBKDF2_F_length.
Qed.

(** The key takes one block of PBKDF2. *)
Lemma PBKDF2_one_block (Pw S : bytes) (c : N) :
  PBKDF2 Pw S c 32 = PBKDF2_F (HMAC_key_block Pw) S c 1.
Proof.
  unfold PBKDF2.
  change ((32 + 31) / 32)%nat with 1%nat.
  cbn [seq flat_map]. rewrite app_nil_r.
  change (Z.of_nat 1) with 1.
  generalize (PBKDF2_F_length (HMAC_key_block Pw) S c 1).
  generalize (PBKDF2_F (HMAC_key_block Pw) S c 1).
  intros block H. apply firstn_all2. lia.
Qed.

Lemma deriveKey_first_block (password : jsstring) (salt : bytes) :
  deriveKey password salt
  = PBKDF2_F (HMAC_key_block (TextEncoder_encode password)) salt ITERATIONS 1.
Proof.
  unfold deriveKey.
  change (Z.to_nat (KEY_LENGTH / 8)) with 32%nat.
  apply PBKDF2_one_block.
Qed.

(** HMAC pads a short key with zeros, so a trailing zero octet is not part
    of the key. *)
Lemma HMAC_key_block_trailing_zero (K : bytes) :
  (length K < 64)%nat ->
  HMAC_key_block (K ++ [Byte.x00]) = HMAC_key_block K.
Proof.
  intros HK. unfold HMAC_key_block, HMAC_block_length.
  rewrite length_app. cbn [length].
  destruct (Nat.ltb_spec 64 (length K + 1)) as [Hlt | _]; [ lia | ].
  destruct (Nat.ltb_spec 64 (length K)) as [Hlt | _]; [ lia | ].
  rewrite length_app. cbn [length].
  replace (64 - length K)%nat with (S (64 - (length K + 1))) by lia.
  cbn [repeat]. rewrite <- app_assoc. reflexivity.
Qed.

Lemma PBKDF2_key_block (K K' S : bytes) (c : N) (n : nat) :
  HMAC_key_block K = HMAC_key_block K' -> PBKDF2 K S c n = PBKDF2 K' S c n.
Proof. intros E. unfold PBKDF2. rewrite E. reflexivity. Qed.

Lemma deriveKey_trailing_zero (password : jsstring) (salt : bytes) :
  Forall (fun c => (c < 128)%N) password ->
  (length password < 64)%nat ->
  deriveKey (password ++ [0%N]) salt = deriveKey password salt.
Proof.
  intros Hascii Hlen. unfold deriveKey.
  apply PBKDF2_key_block.
  assert (Hascii' : Forall (fun c => (c < 128)%N) (password ++ [0%N])).
  { apply Forall_app. split; auto. constructor; [ reflexivity | constructor ]. }
  rewrite (TextEncoder_encode_ascii _ Hascii').
  rewrite (TextEncoder_encode_ascii _ Hascii).
  rewrite map_app. cbn [map].
  change (byte_of_N 0) with Byte.x00.
  apply HMAC_key_block_trailing_zero. rewrite length_map. exact Hlen.
Qed.

(** When the chain of PBKDF2 returns to its start after [p] steps, the
    key is the one of the iteration count modulo [p]. *)
Lemma deriveKey_periodic (password : jsstring) (salt : bytes) (p : N) :
  let pads := HMAC_pads (HMAC_key_block (TextEncoder_encode password)) in
  let U1 := HMAC_of_pads pads (salt ++ INT_32_BE 1) in
  N.iter p (PBKDF2_step pads) (U1, U1) = (U1, U1) ->
  deriveKey password salt
  = snd (N.iter ((ITERATIONS - 1) mod p) (PBKDF2_step pads) (U1, U1)).
Proof.
  intros pads U1 H.
  pose proof (deriveKey_length password salt) as Hlen. revert Hlen.
  unfold deriveKey, PBKDF2.
  change (Z.to_nat (KEY_LENGTH / 8)) with 32%nat.
  change ((32 + 31) / 32)%nat with 1%nat.
  cbn [seq flat_map]. rewrite app_nil_r.
  rewrite firstn_all2 by (rewrite PBKDF2_F_length; lia).
  intros _.
  change (PBKDF2_F (HMAC_key_block (TextEncoder_encode password)) salt
            ITERATIONS (Z.of_nat 1))
    with (snd (N.iter (ITERATIONS - 1) (PBKDF2_step pads) (U1, U1))).
  rewrite (iter_periodic (PBKDF2_step pads) (U1, U1) p (ITERATIONS - 1) H).
  reflexivity.
Qed.

(** Two passwords with one HMAC key block have one key. *)
Lemma deriveKey_key_block (p1 p2 : jsstring) (salt : bytes) :
  HMAC_key_block (TextEncoder_encode p1)
  = HMAC_key_block (TextEncoder_encode p2) ->
  deriveKey p1 salt = deriveKey p2 salt.
Proof. intros E. unfold deriveKey. apply PBKDF2_key_block. exact E. Qed.

End KeyDerivationFacts.

(** The key depends on the platform by its hash function and its encoder
    alone. *)
Lemma deriveKey_platform (P1 P2 : Platform) (password : jsstring)
    (salt : bytes) :
  @sha256 P1 = @sha256 P2 ->
  @TextEncoder_encode P1 = @TextEncoder_encode P2 ->
  @deriveKey P1 password salt = @deriveKey P2 password salt.
Proof.
  intros Hsha Hencode.
  unfold deriveKey, PBKDF2, PBKDF2_F, PBKDF2_step, HMAC_of_pads,
    HMAC_key_block.
  rewrite Hsha, Hencode. reflexivity.
Qed.

(** The 100000 iterations are never unfolded in a proof. *)
#[global] Opaque deriveKey.

(** ** The cipher *)

Section CipherFacts.
Context {P : Platform}.
Variable UI : Type.
Implicit Types (w : World UI) (cb : option (callback UI)).

Lemma random_reports cb ps w : random (reports cb ps w) = random w.
Proof.
  revert w; induction ps as [| p ps IH]; intros w; cbn [reports]; auto.
  rewrite IH. destruct cb; reflexivity.
Qed.

Lemma ui_reports_None ps w : reports None ps w = w.
Proof. induction ps; cbn; auto. Qed.

Lemma ui_reports_Some (f : callback UI) ps w :
  ui (reports (Some f) ps w) = fold_left (fun u p => f p u) ps (ui w).
Proof.
  revert w; induction ps as [| p ps IH]; intros w; cbn [reports fold_left].
  - reflexivity.
  - rewrite IH. reflexivity.
Qed.

Lemma dataToEncrypt_eq (file : File) :
  dataToEncrypt file (file_bytes file) = inr (plaintext_of file).
Proof.
  unfold dataToEncrypt, plaintext_of.
  pose proof (Uint8Array_fill3
                (Uint32Array_of (Z.of_nat (length (metadataBytes_of file))))
                (metadataBytes_of file) (file_bytes file)) as H.
  rewrite Uint32Array_of_length in H. exact H.
Qed.

Lemma container_eq (salt iv encryptedData : bytes) :
  container salt iv encryptedData = inr (salt ++ iv ++ encryptedData).
Proof. apply Uint8Array_fill3. Qed.

Lemma encryptFile_eq (file : File) (password : jsstring) cb w :
  encryptFile file password cb w
  = (reports cb [20; 30; 50; 70; 90; 100]
       (drawn IV_LENGTH (drawn SALT_LENGTH (reports cb [10] w))),
     inr {| blob_bytes := encrypted_of file password w;
            blob_type := JString (lit "application/encrypted") |}).
Proof.
  unfold encryptFile.
  rewrite dataToEncrypt_eq.
  destruct cb as [f |];
    cbv [bind report getRandomValues lift ret throw reports drawn fst snd
         ui random salt_of iv_of encrypted_of container_of];
    rewrite container_eq; reflexivity.
Qed.

(** Runs the binds of a computation. *)
Ltac run := cbv [bind report lift ret throw reports fst snd ui random].

Lemma decryptFile_rejected (file : File) (password : jsstring) cb w :
  decryptedData_of file password = None ->
  decryptFile file password cb w
  = (reports cb [10; 20; 30; 50] w, inl (Error wrong_password_or_corrupt)).
Proof.
  unfold decryptedData_of, decryptFile. intros H.
  destruct cb as [f |];
    run;
    rewrite H; reflexivity.
Qed.

Lemma decryptFile_bad_length (file : File) (password : jsstring) cb w
    (decryptedBytes : bytes) (e : exn) :
  decryptedData_of file password = Some decryptedBytes ->
  metadataLength_of decryptedBytes = inl e ->
  decryptFile file password cb w = (reports cb [10; 20; 30; 50; 70] w, inl e).
Proof.
  unfold decryptedData_of, decryptFile. intros H1 H2.
  destruct cb as [f |];
    run;
    rewrite H1; cbv beta iota; rewrite H2; reflexivity.
Qed.

Lemma decryptFile_bad_json (file : File) (password : jsstring) cb w
    (decryptedBytes : bytes) (metadataLength : option Z) :
  decryptedData_of file password = Some decryptedBytes ->
  metadataLength_of decryptedBytes = inr metadataLength ->
  JSON_parse (metadataText_of decryptedBytes metadataLength) = None ->
  decryptFile file password cb w
  = (reports cb [10; 20; 30; 50; 70] w, inl SyntaxError).
Proof.
  unfold decryptedData_of, metadataText_of, decryptFile. intros H1 H2 H3.
  destruct cb as [f |];
    run;
    rewrite H1; cbv beta iota; rewrite H2; cbv beta iota; rewrite H3;
    reflexivity.
Qed.

Lemma decryptFile_null (file : File) (password : jsstring) cb w
    (decryptedBytes : bytes) (metadataLength : option Z) :
  decryptedData_of file password = Some decryptedBytes ->
  metadataLength_of decryptedBytes = inr metadataLength ->
  JSON_parse (metadataText_of decryptedBytes metadataLength) = Some JNull ->
  decryptFile file password cb w
  = (reports cb [10; 20; 30; 50; 70; 100] w, inl TypeError).
Proof.
  unfold decryptedData_of, metadataText_of, decryptFile. intros H1 H2 H3.
  destruct cb as [f |];
    run;
    rewrite H1; cbv beta iota; rewrite H2; cbv beta iota; rewrite H3;
    reflexivity.
Qed.

Lemma get_property (metadata : value) (key : jsstring) :
  metadata <> JNull -> get metadata key = inr (property metadata key).
Proof.
  intros H. unfold property. destruct metadata; try reflexivity.
  contradiction.
Qed.

Lemma decryptFile_returns (file : File) (password : jsstring) cb w
    (decryptedBytes : bytes) (metadataLength : option Z) (metadata : value)
    (blobType : jsstring) :
  decryptedData_of file password = Some decryptedBytes ->
  metadataLength_of decryptedBytes = inr metadataLength ->
  JSON_parse (metadataText_of decryptedBytes metadataLength) = Some metadata ->
  metadata <> JNull ->
  ToString (type_of metadata) = inr blobType ->
  decryptFile file password cb w
  = (reports cb [10; 20; 30; 50; 70; 100] w,
     inr (decrypted decryptedBytes metadataLength metadata blobType)).
Proof.
  unfold decryptedData_of, metadataText_of, decryptFile, type_of, new_Blob.
  intros H1 H2 H3 H4 H5.
  destruct cb as [f |];
    run;
    rewrite H1; cbv beta iota; rewrite H2; cbv beta iota; rewrite H3;
    cbv beta iota; rewrite !(get_property _ _ H4); cbv beta iota;
    rewrite H5; reflexivity.
Qed.

(** A type that cannot be converted to a string: the Blob is not built. *)
Lemma decryptFile_bad_type (file : File) (password : jsstring) cb w
    (decryptedBytes : bytes) (metadataLength : option Z) (metadata : value)
    (e : exn) :
  decryptedData_of file password = Some decryptedBytes ->
  metadataLength_of decryptedBytes = inr metadataLength ->
  JSON_parse (metadataText_of decryptedBytes metadataLength) = Some metadata ->
  metadata <> JNull ->
  ToString (type_of metadata) = inl e ->
  decryptFile file password cb w
  = (reports cb [10; 20; 30; 50; 70; 100] w, inl e).
Proof.
  unfold decryptedData_of, metadataText_of, decryptFile, type_of, new_Blob.
  intros H1 H2 H3 H4 H5.
  destruct cb as [f |];
    run;
    rewrite H1; cbv beta iota; rewrite H2; cbv beta iota; rewrite H3;
    cbv beta iota; rewrite !(get_property _ _ H4); cbv beta iota;
    rewrite H5; reflexivity.
Qed.

(** The conversion throws nothing but a TypeError. *)
Lemma join_throws (f : value -> exn + jsstring) (items : list value) :
  Forall (fun element => forall e, f element = inl e -> e = TypeError) items ->
  forall e, join f items = inl e -> e = TypeError.
Proof.
  induction 1 as [| element rest Helement _ IHrest]; intros e;
    cbn [join].
  - discriminate.
  - destruct (match element with JNull => inr [] | _ => f element end)
      as [e' | s] eqn:E.
    + intros [= <-]. apply Helement.
      destruct element; try exact E. discriminate.
    + destruct rest as [| element' rest']; [ discriminate | ].
      fold (join f) in IHrest |- *.
      destruct (join f (element' :: rest')) as [e' | r].
      * intros [= <-]. apply IHrest. reflexivity.
      * discriminate.
Qed.

Lemma ToString_throws (v : value) (e : exn) :
  ToString v = inl e -> e = TypeError.
Proof.
  revert v e. fix IH 1. intros v e.
  destruct v as [| b | x | s | items | props]; cbn [ToString].
  - discriminate.
  - destruct b; discriminate.
  - discriminate.
  - discriminate.
  - apply join_throws.
    induction items as [| element rest IHrest]; constructor.
    + apply IH.
    + exact IHrest.
  - destruct (lookup (lit "toString") props); [ | discriminate ].
    intros [= <-]. reflexivity.
Qed.

End CipherFacts.

(** ** Encryption followed by decryption *)

Section RoundTrip.
Context {P : Platform} {ok : PlatformOk P}.
Variable UI : Type.
Implicit Types (w : World UI) (cb : option (callback UI)).

Lemma salt_of_length w : length (salt_of w) = 16%nat.
Proof. unfold salt_of. rewrite length_map, length_seq. reflexivity. Qed.

Lemma iv_of_length w : length (iv_of w) = 12%nat.
Proof. unfold iv_of. rewrite length_map, length_seq. reflexivity. Qed.

Lemma slice_salt (salt rest : bytes) :
  length salt = 16%nat -> slice 0 SALT_LENGTH (salt ++ rest) = salt.
Proof.
  intros H. unfold slice, SALT_LENGTH. rewrite skipn_O, Nat.sub_0_r.
  rewrite <- H, firstn_app, firstn_all, Nat.sub_diag, firstn_O.
  apply app_nil_r.
Qed.

Lemma slice_iv (salt iv rest : bytes) :
  length salt = 16%nat -> length iv = 12%nat ->
  slice SALT_LENGTH (SALT_LENGTH + IV_LENGTH) (salt ++ iv ++ rest) = iv.
Proof.
  intros Hs Hi. unfold slice, SALT_LENGTH, IV_LENGTH.
  rewrite skipn_app, Hs, Nat.sub_diag, skipn_O.
  rewrite skipn_all2 by lia. cbn [app].
  replace (16 + 12 - 16)%nat with (length iv) by lia.
  rewrite firstn_app, firstn_all, Nat.sub_diag, firstn_O.
  apply app_nil_r.
Qed.

Lemma slice_from_ciphertext (salt iv rest : bytes) :
  length salt = 16%nat -> length iv = 12%nat ->
  slice_from (SALT_LENGTH + IV_LENGTH) (salt ++ iv ++ rest) = rest.
Proof.
  intros Hs Hi. unfold slice_from, SALT_LENGTH, IV_LENGTH.
  rewrite app_assoc, skipn_app, length_app, Hs, Hi.
  rewrite skipn_all2 by (rewrite length_app; lia).
  reflexivity.
Qed.

(** Decryption with the password of the encryption recovers the plaintext
    [encryptFile] assembled. *)
Lemma decryptedData_of_container (file' : File) (p1 p2 : jsstring) w
    (plaintext : bytes) :
  file_bytes file' = container_of p1 w plaintext ->
  decryptedData_of file' p2
  = aes_gcm_decrypt (deriveKey p2 (salt_of w)) (iv_of w)
      (aes_gcm_encrypt (deriveKey p1 (salt_of w)) (iv_of w) plaintext).
Proof.
  intros E. unfold decryptedData_of. rewrite E. unfold container_of.
  rewrite slice_salt, slice_iv, slice_from_ciphertext
    by auto using salt_of_length, iv_of_length.
  reflexivity.
Qed.

Lemma decryptedData_of_sealed (file' : File) (password : jsstring) w
    (plaintext : bytes) :
  file_bytes file' = container_of password w plaintext ->
  decryptedData_of file' password = Some plaintext.
Proof.
  intros E. rewrite (decryptedData_of_container file' password password w _ E).
  apply aes_gcm_decrypt_encrypt; auto using deriveKey_length, iv_of_length.
Qed.

Lemma decryptedData_of_encrypted (file file' : File) (password : jsstring) w :
  file_bytes file' = encrypted_of file password w ->
  decryptedData_of file' password = Some (plaintext_of file).
Proof. apply decryptedData_of_sealed. Qed.

Lemma decryptedData_of_short (file : File) (password : jsstring) :
  (length (file_bytes file) < 44)%nat ->
  decryptedData_of file password = None.
Proof.
  intros H. unfold decryptedData_of. apply aes_gcm_decrypt_short.
  unfold slice_from, SALT_LENGTH, IV_LENGTH. rewrite length_skipn. lia.
Qed.

Lemma metadataLength_of_plaintext (file : File) :
  metadataLength_of (plaintext_of file)
  = inr (Some (Z.of_nat (length (metadataBytes_of file)) mod 2 ^ 32)).
Proof. apply Uint32Array_first_of. Qed.

Lemma slice_metadata (file : File) :
  slice 4 (4 + length (metadataBytes_of file)) (plaintext_of file)
  = metadataBytes_of file.
Proof.
  unfold slice, plaintext_of.
  rewrite skipn_app, Uint32Array_of_length, Nat.sub_diag, skipn_O.
  rewrite skipn_all2 by (rewrite Uint32Array_of_length; lia). cbn [app].
  replace (4 + length (metadataBytes_of file) - 4)%nat
    with (length (metadataBytes_of file)) by lia.
  rewrite firstn_app, firstn_all, Nat.sub_diag, firstn_O.
  apply app_nil_r.
Qed.

Lemma slice_from_content (file : File) :
  slice_from (4 + length (metadataBytes_of file)) (plaintext_of file)
  = file_bytes file.
Proof.
  unfold slice_from, plaintext_of.
  rewrite app_assoc, skipn_app, length_app, Uint32Array_of_length.
  rewrite skipn_all2 by (rewrite length_app, Uint32Array_of_length; lia).
  rewrite Nat.sub_diag. reflexivity.
Qed.

Lemma metadata_end_small (n : nat) :
  Z.of_nat n < 2 ^ 32 ->
  metadata_end (Some (Z.of_nat n mod 2 ^ 32)) = (4 + n)%nat.
Proof.
  intros H. unfold metadata_end. rewrite Z.mod_small by lia. lia.
Qed.

Lemma decryptFile_encrypted (file file' : File) (password : jsstring) w cb w' :
  is_jsstring (file_name file) -> is_jsstring (file_type file) ->
  Z.of_nat (length (metadataBytes_of file)) < 2 ^ 32 ->
  file_bytes file' = encrypted_of file password w ->
  decryptFile file' password cb w'
  = (reports cb [10; 20; 30; 50; 70; 100] w', inr (restored file)).
Proof.
  intros Hname Htype Hlen E.
  pose proof (decryptedData_of_encrypted file file' password w E) as H1.
  pose proof (metadataLength_of_plaintext file) as H2.
  assert (H3 : JSON_parse
                 (metadataText_of (plaintext_of file)
                    (Some (Z.of_nat (length (metadataBytes_of file)) mod 2 ^ 32)))
               = Some (metadata_record (file_name file) (file_type file))).
  { unfold metadataText_of. rewrite metadata_end_small, slice_metadata by exact Hlen.
    apply JSON_parse_stringify; assumption. }
  assert (H4 : metadata_record (file_name file) (file_type file) <> JNull)
    by discriminate.
  assert (H5 : ToString
                 (type_of (metadata_record (file_name file) (file_type file)))
               = inr match file_type file with
                     | [] => default_type
                     | _ :: _ => file_type file
                     end).
  { unfold type_of, property, metadata_record.
    destruct (file_type file); reflexivity. }
  rewrite (decryptFile_returns UI file' password cb w' _ _ _ _ H1 H2 H3 H4 H5).
  f_equal. f_equal. unfold decrypted, restored, type_of.
  rewrite metadata_end_small, slice_from_content by exact Hlen.
  destruct file as [name type content]. cbn [file_name file_type file_bytes].
  destruct name, type; reflexivity.
Qed.

End RoundTrip.

(** ** The reference platform is lawful *)

Module ReferenceFacts.
Import Reference.

Lemma xor8_involutive (a b : byte) : xor8 a (xor8 a b) = b.
Proof.
  rewrite <- (Byte.of_bits_to_bits b) at 2.
  unfold xor8.
  destruct (Byte.to_bits a) as [a0 [a1 [a2 [a3 [a4 [a5 [a6 a7]]]]]]].
  destruct (Byte.to_bits b) as [b0 [b1 [b2 [b3 [b4 [b5 [b6 b7]]]]]]].
  rewrite Byte.to_bits_of_bits.
  repeat rewrite <- xorb_assoc. repeat rewrite xorb_nilpotent.
  repeat rewrite xorb_false_l. reflexivity.
Qed.

Lemma map_xor8_involutive (k : byte) (data : bytes) :
  map (xor8 k) (map (xor8 k) data) = data.
Proof.
  induction data as [| x data IH]; cbn [map]; [ reflexivity | ].
  rewrite xor8_involutive, IH. reflexivity.
Qed.

Lemma bytes_eqb_refl (a : bytes) : bytes_eqb a a = true.
Proof.
  induction a as [| x a IH]; cbn [bytes_eqb]; [ reflexivity | ].
  rewrite IH, andb_true_r. apply Byte.byte_dec_lb. reflexivity.
Qed.

Lemma tag_length (key iv body : bytes) : length (tag key iv body) = 16%nat.
Proof.
  unfold tag. rewrite length_map, length_firstn, length_app, repeat_length. lia.
Qed.

Lemma unseal_seal (key iv data : bytes) :
  unseal key iv (seal key iv data) = Some data.
Proof.
  unfold unseal, seal.
  set (body := map (xor8 (keystream key iv)) data).
  rewrite length_app, tag_length.
  destruct (Nat.ltb_spec (length body + 16) 16) as [Hlt | _]; [ lia | ].
  replace (length body + 16 - 16)%nat with (length body) by lia.
  rewrite firstn_app, firstn_all, Nat.sub_diag, firstn_O, app_nil_r.
  rewrite skipn_app, skipn_all, Nat.sub_diag, skipn_O. cbn [app].
  rewrite bytes_eqb_refl. unfold body.
  rewrite map_xor8_involutive. reflexivity.
Qed.

Lemma unseal_short (key iv data : bytes) :
  (length data < 16)%nat -> unseal key iv data = None.
Proof.
  intros H. unfold unseal.
  destruct (Nat.ltb_spec (length data) 16) as [_ | Hge]; [ reflexivity | lia ].
Qed.

(** *** UTF-8 on ASCII *)

Lemma to_N_byte_of_N (n : N) : (n < 256)%N -> Byte.to_N (byte_of_N n) = n.
Proof.
  intros H. unfold byte_of_N.
  destruct (Byte.of_N n) as [b |] eqn:E.
  - apply Byte.to_of_N. exact E.
  - apply Byte.of_N_None_iff in E. lia.
Qed.

Lemma utf8_encode_ascii (s : jsstring) :
  Forall (fun c => (c < 128)%N) s -> utf8_encode s = map byte_of_N s.
Proof.
  induction 1 as [| c s Hc Hs IH]; cbn [utf8_encode map]; [ reflexivity | ].
  unfold is_high_surrogate, is_low_surrogate, utf8_of_scalar.
  destruct (N.leb_spec 55296 c); [ lia | ].
  destruct (N.leb_spec 56320 c); [ lia | ].
  destruct (N.ltb_spec c 128); [ | lia ].
  cbn [andb app]. rewrite IH. reflexivity.
Qed.

Lemma utf8_decode_ascii (s : jsstring) :
  Forall (fun c => (c < 128)%N) s -> utf8_decode (map byte_of_N s) = s.
Proof.
  induction 1 as [| c s Hc Hs IH]; cbn [utf8_decode map]; [ reflexivity | ].
  rewrite to_N_byte_of_N by lia.
  destruct (N.ltb_spec c 128); [ | lia ].
  rewrite IH. reflexivity.
Qed.

Lemma strip_bom_ascii (c : code_unit) (s : jsstring) :
  (c < 128)%N -> strip_bom (map byte_of_N (c :: s)) = map byte_of_N (c :: s).
Proof.
  intros Hc. cbn [map]. unfold strip_bom.
  destruct (map byte_of_N s) as [| y [| z r]]; try reflexivity.
  cbn [bytes_eqb].
  destruct (Byte.eqb (byte_of_N c) Byte.xef) eqn:E; [ | reflexivity ].
  apply Byte.byte_dec_bl in E.
  apply (f_equal Byte.to_N) in E. rewrite to_N_byte_of_N in E by lia.
  cbn in E. lia.
Qed.

Lemma decode_encode_ascii (c : code_unit) (s : jsstring) :
  Forall (fun c => (c < 128)%N) (c :: s) ->
  decode (utf8_encode (c :: s)) = c :: s.
Proof.
  intros H. unfold decode. rewrite utf8_encode_ascii by exact H.
  rewrite strip_bom_ascii by (inversion H; assumption).
  apply utf8_decode_ascii. exact H.
Qed.

(** *** JSON on a metadata record *)

Local Open Scope N_scope.

Lemma hexdigit_ascii (d : N) : d < 16 -> hexdigit d < 128.
Proof. intros H. unfold hexdigit. destruct (N.ltb_spec d 10); lia. Qed.

Lemma hexval_hexdigit (d : N) : d < 16 -> hexval (hexdigit d) = Some d.
Proof.
  intros H. unfold hexdigit, hexval.
  destruct (N.ltb_spec d 10) as [H10 | H10].
  - destruct (N.leb_spec 48 (48 + d)); [ | lia ].
    destruct (N.leb_spec (48 + d) 57); [ | lia ].
    cbn [andb]. f_equal. lia.
  - destruct (N.leb_spec 48 (87 + d)); [ | lia ].
    destruct (N.leb_spec (87 + d) 57); [ lia | ].
    destruct (N.leb_spec 97 (87 + d)); [ | lia ].
    destruct (N.leb_spec (87 + d) 102); [ | lia ].
    cbn [andb]. f_equal. lia.
Qed.

Lemma hex4_digits (c : N) :
  c < 65536 ->
  c / 4096 mod 16 * 4096 + c / 256 mod 16 * 256 + c / 16 mod 16 * 16 + c mod 16
  = c.
Proof.
  intros H.
  pose proof (N.div_mod c 16 ltac:(discriminate)) as E0.
  pose proof (N.div_mod (c / 16) 16 ltac:(discriminate)) as E1.
  pose proof (N.div_mod (c / 256) 16 ltac:(discriminate)) as E2.
  rewrite (N.Div0.div_div c 16 16) in E1.
  rewrite (N.Div0.div_div c 256 16) in E2.
  change (16 * 16) with 256 in E1. change (256 * 16) with 4096 in E2.
  assert (H3 : c / 4096 < 16).
  { apply N.Div0.div_lt_upper_bound. exact H. }
  rewrite (N.mod_small (c / 4096) 16) by exact H3.
  lia.
Qed.

Lemma hex4_value_hex4 (c : N) :
  c < 65536 ->
  hex4_value (hexdigit (c / 4096 mod 16)) (hexdigit (c / 256 mod 16))
             (hexdigit (c / 16 mod 16)) (hexdigit (c mod 16)) = Some c.
Proof.
  intros H. unfold hex4_value.
  rewrite !hexval_hexdigit by (apply N.mod_lt; discriminate).
  f_equal. apply hex4_digits. exact H.
Qed.

Lemma escape_ascii (c : code_unit) : Forall (fun c => c < 128) (escape c).
Proof.
  unfold escape.
  destruct (N.eqb_spec c 34); [ repeat constructor | ].
  destruct (N.eqb_spec c 92); [ repeat constructor | ].
  destruct (N.ltb_spec c 32); destruct (N.leb_spec 127 c); cbn [orb];
    try (repeat constructor;
         try (apply hexdigit_ascii; apply N.mod_lt; discriminate); fail).
  repeat constructor. lia.
Qed.

Lemma parse_chars_escape (s rest : jsstring) :
  is_jsstring s ->
  parse_chars (flat_map escape s ++ 34 :: rest) = Some (s, rest).
Proof.
  induction 1 as [| c s Hc Hs IH]; [ reflexivity | ].
  cbn [flat_map]. rewrite <- app_assoc.
  set (tail := (flat_map escape s ++ 34 :: rest)%list) in *.
  unfold escape.
  destruct (N.eqb_spec c 34) as [-> | H34].
  { cbn [app parse_chars].
    change (92 =? 34) with false. change (92 =? 92) with true.
    change (34 =? 117) with false. change (unescape 34) with (Some 34).
    cbv iota. rewrite IH. reflexivity. }
  destruct (N.eqb_spec c 92) as [-> | H92].
  { cbn [app parse_chars].
    change (92 =? 34) with false. change (92 =? 92) with true.
    change (92 =? 117) with false. change (unescape 92) with (Some 92).
    cbv iota. rewrite IH. reflexivity. }
  destruct ((c <? 32) || (127 <=? c)) eqn:Hesc.
  - cbn [app hex4 parse_chars].
    change (92 =? 34) with false. change (92 =? 92) with true.
    change (117 =? 117) with true. cbv iota.
    rewrite hex4_value_hex4 by exact Hc.
    rewrite IH. reflexivity.
  - apply orb_false_elim in Hesc. destruct Hesc as [H32 _].
    cbn [app parse_chars].
    destruct (N.eqb_spec c 34); [ contradiction | ].
    destruct (N.eqb_spec c 92); [ contradiction | ].
    rewrite H32, IH. reflexivity.
Qed.

Lemma stringify_metadata_record (name type : jsstring) :
  stringify (metadata_record name type)
  = (json "{'name':'" ++ flat_map escape name ++ json "','type':'"
     ++ flat_map escape type ++ json "'}")%list.
Proof.
  cbn [stringify metadata_record].
  change (quote (lit "name")) with (json "'name'").
  change (quote (lit "type")) with (json "'type'").
  unfold quote.
  cbn [json lit list_ascii_of_string map app].
  repeat (rewrite <- app_assoc; cbn [app]). reflexivity.
Qed.

Lemma parse_metadata_record (name type : jsstring) :
  is_jsstring name -> is_jsstring type ->
  parse (stringify (metadata_record name type))
  = Some (metadata_record name type).
Proof.
  intros Hname Htype. unfold parse.
  rewrite stringify_metadata_record.
  pose proof (fun rest => parse_chars_escape name rest Hname) as Pname.
  pose proof (fun rest => parse_chars_escape type rest Htype) as Ptype.
  set (en := flat_map escape name) in *.
  set (et := flat_map escape type) in *.
  cbn. rewrite Pname. cbn. rewrite Ptype. reflexivity.
Qed.

Lemma flat_map_escape_ascii (s : jsstring) :
  Forall (fun c => c < 128) (flat_map escape s).
Proof.
  apply Forall_flat_map. apply Forall_forall. intros c _. apply escape_ascii.
Qed.

Lemma stringify_metadata_record_ascii (name type : jsstring) :
  Forall (fun c => c < 128) (stringify (metadata_record name type)).
Proof.
  rewrite stringify_metadata_record.
  repeat (apply Forall_app; split);
    auto using flat_map_escape_ascii;
    cbn; repeat constructor.
Qed.

Lemma decode_stringify_metadata_record (name type : jsstring) :
  decode (utf8_encode (stringify (metadata_record name type)))
  = stringify (metadata_record name type).
Proof.
  pose proof (stringify_metadata_record_ascii name type) as H.
  destruct (stringify (metadata_record name type)) as [| c s] eqn:E.
  - rewrite stringify_metadata_record in E. discriminate.
  - apply decode_encode_ascii. exact H.
Qed.

#[export] Instance platform_ok : PlatformOk platform.
Proof.
  constructor.
  - reflexivity.
  - intros key iv data _ _. apply unseal_seal.
  - apply unseal_short.
  - apply utf8_encode_ascii.
  - intros name type Hname Htype.
    cbn [JSON_parse JSON_stringify TextDecoder_decode TextEncoder_encode
         platform].
    rewrite decode_stringify_metadata_record.
    apply parse_metadata_record; assumption.
Qed.

Lemma bytes_eqb_eq (a b : bytes) : bytes_eqb a b = true -> a = b.
Proof.
  revert b. induction a as [| x a IH]; intros [| y b]; cbn [bytes_eqb];
    try discriminate; [ reflexivity | ].
  intros H. apply andb_true_iff in H. destruct H as [Hxy Hab].
  apply Byte.byte_dec_bl in Hxy. rewrite Hxy, (IH b Hab). reflexivity.
Qed.

Lemma map_xor8_injective (k : byte) (a b : bytes) :
  map (xor8 k) a = map (xor8 k) b -> a = b.
Proof.
  intros H. rewrite <- (map_xor8_involutive k a), H.
  apply map_xor8_involutive.
Qed.

Lemma unseal_with_key_other (key key' iv data : bytes) :
  length key = length key' -> (16 <= length key)%nat -> key <> key' ->
  unseal_with_key key' iv (seal_with_key key iv data) = None.
Proof.
  intros Hlen H16 Hkey. unfold unseal_with_key, seal_with_key, tag_of_key.
  set (body := map (xor8 (keystream key iv)) data).
  rewrite length_app, length_map, <- Hlen.
  destruct (Nat.ltb_spec (length body + length key) 16) as [Hlt | _];
    [ lia | ].
  destruct (Nat.ltb_spec (length body + length key) (length key))
    as [Hlt | _]; [ lia | ].
  cbn [orb].
  replace (length body + length key - length key)%nat with (length body)
    by lia.
  rewrite firstn_app, firstn_all, Nat.sub_diag, firstn_O, app_nil_r.
  rewrite skipn_app, skipn_all, Nat.sub_diag, skipn_O. cbn [app].
  destruct (bytes_eqb (map (xor8 (checksum (iv ++ body))) key)
              (map (xor8 (checksum (iv ++ body))) key')) eqn:E;
    [ | reflexivity ].
  apply bytes_eqb_eq, map_xor8_injective in E. contradiction.
Qed.

Lemma unseal_with_key_seal (key iv data : bytes) :
  (16 <= length key)%nat ->
  unseal_with_key key iv (seal_with_key key iv data) = Some data.
Proof.
  intros H16. unfold unseal_with_key, seal_with_key, tag_of_key.
  set (body := map (xor8 (keystream key iv)) data).
  rewrite length_app, length_map.
  destruct (Nat.ltb_spec (length body + length key) 16) as [Hlt | _];
    [ lia | ].
  destruct (Nat.ltb_spec (length body + length key) (length key))
    as [Hlt | _]; [ lia | ].
  cbn [orb].
  replace (length body + length key - length key)%nat with (length body)
    by lia.
  rewrite firstn_app, firstn_all, Nat.sub_diag, firstn_O, app_nil_r.
  rewrite skipn_app, skipn_all, Nat.sub_diag, skipn_O. cbn [app].
  rewrite bytes_eqb_refl. unfold body.
  rewrite map_xor8_involutive. reflexivity.
Qed.

Lemma strict_platform_ok : PlatformOk strict_platform.
Proof.
  constructor.
  - reflexivity.
  - intros key iv data Hkey _.
    cbn [aes_gcm_decrypt aes_gcm_encrypt strict_platform].
    apply unseal_with_key_seal. lia.
  - intros key iv data H.
    cbn [aes_gcm_decrypt strict_platform]. unfold unseal_with_key.
    destruct (Nat.ltb_spec (length data) 16) as [_ | Hge]; [ | lia ].
    reflexivity.
  - apply utf8_encode_ascii.
  - exact (@JSON_parse_stringify platform platform_ok).
Qed.

Lemma strict_platform_authentic : Authentic strict_platform.
Proof.
  constructor. intros key key' iv data Hkey Hkey' Hne.
  cbn [aes_gcm_decrypt aes_gcm_encrypt strict_platform].
  apply unseal_with_key_other; [ congruence | lia | exact Hne ].
Qed.

End ReferenceFacts.

(** ** Facts about the example inputs *)

Module ExampleFacts.
Import Reference ReferenceFacts.

Lemma salt_of_world0 :
  salt_of world0
  = [Byte.x03; Byte.x0a; Byte.x11; Byte.x18; Byte.x1f; Byte.x26; Byte.x2d;
     Byte.x34; Byte.x3b; Byte.x42; Byte.x49; Byte.x50; Byte.x57; Byte.x5e;
     Byte.x65; Byte.x6c].
Proof. reflexivity. Qed.

(** The chain of [correct_horse] has period 30, the chain of
    [wrong_horse] period 336. *)
Lemma key_correct_horse :
  deriveKey correct_horse (salt_of world0) = key_of_correct_horse.
Proof.
  rewrite (deriveKey_periodic correct_horse (salt_of world0) 30).
  - vm_compute. reflexivity.
  - vm_compute. reflexivity.
Qed.

Lemma key_wrong_horse :
  deriveKey wrong_horse (salt_of world0) = key_of_wrong_horse.
Proof.
  rewrite (deriveKey_periodic wrong_horse (salt_of world0) 336).
  - vm_compute. reflexivity.
  - vm_compute. reflexivity.
Qed.

(** The strict platform derives the same keys. *)
Lemma strict_key_correct_horse :
  @deriveKey strict_platform correct_horse (salt_of world0)
  = key_of_correct_horse.
Proof.
  rewrite (deriveKey_platform strict_platform platform correct_horse
             (salt_of world0) eq_refl eq_refl).
  exact key_correct_horse.
Qed.

Lemma strict_key_wrong_horse :
  @deriveKey strict_platform wrong_horse (salt_of world0)
  = key_of_wrong_horse.
Proof.
  rewrite (deriveKey_platform strict_platform platform wrong_horse
             (salt_of world0) eq_refl eq_refl).
  exact key_wrong_horse.
Qed.

(** With [wrong_horse] the reference cipher rejects what [correct_horse]
    sealed. *)
Lemma wrong_horse_rejected (plaintext : bytes) :
  aes_gcm_decrypt (deriveKey wrong_horse (salt_of world0)) (iv_of world0)
    (aes_gcm_encrypt (deriveKey correct_horse (salt_of world0))
       (iv_of world0) plaintext) = None.
Proof.
  rewrite key_correct_horse, key_wrong_horse.
  cbn [aes_gcm_decrypt aes_gcm_encrypt platform].
  unfold unseal, seal.
  set (body := map (xor8 (keystream key_of_correct_horse (iv_of world0)))
                 plaintext).
  rewrite length_app, tag_length.
  destruct (Nat.ltb_spec (length body + 16) 16) as [Hlt | _]; [ lia | ].
  replace (length body + 16 - 16)%nat with (length body) by lia.
  rewrite firstn_app, firstn_all, Nat.sub_diag, firstn_O, app_nil_r.
  rewrite skipn_app, skipn_all, Nat.sub_diag, skipn_O. cbn [app].
  unfold tag.
  change (firstn 16 (key_of_correct_horse ++ repeat Byte.x00 16))
    with (Byte.x66 :: repeat Byte.x00 15).
  change (firstn 16 (key_of_wrong_horse ++ repeat Byte.x00 16))
    with (Byte.xb6 :: repeat Byte.x00 15).
  cbn [map bytes_eqb].
  set (c := checksum (iv_of world0 ++ body)).
  destruct (Byte.eqb (xor8 c Byte.x66) (xor8 c Byte.xb6)) eqn:E;
    [ | reflexivity ].
  apply Byte.byte_dec_bl in E.
  apply (f_equal (xor8 c)) in E. rewrite !xor8_involutive in E.
  discriminate.
Qed.

(** *** The reference platform at work *)

Example stringify_a_txt :
  stringify (metadata_record (lit "a.txt") (lit "text/plain"))
  = json "{'name':'a.txt','type':'text/plain'}".
Proof. reflexivity. Qed.

Example stringify_escapes :
  stringify (JString [34; 233; 10]%N) = json "'\'\u00e9\u000a'".
Proof. reflexivity. Qed.

Example parse_object :
  parse (json " { 'type' : 'x', 'list' : [null, true, {}], 'type' : 'y' } ")
  = Some (JObject [(lit "type", JString (lit "y"));
                   (lit "list", JArray [JNull; JBool true; JObject []])]).
Proof. reflexivity. Qed.

Example parse_rejects_trailing_text : parse (json "{} x") = None.
Proof. reflexivity. Qed.

Example parse_rejects_empty_text : parse [] = None.
Proof. reflexivity. Qed.

Example utf8_encode_scalars :
  utf8_encode [97; 233; 8364; 55357; 56832]%N
  = [Byte.x61; Byte.xc3; Byte.xa9; Byte.xe2; Byte.x82; Byte.xac;
     Byte.xf0; Byte.x9f; Byte.x98; Byte.x80].
Proof. reflexivity. Qed.

Example utf8_encode_lone_surrogate :
  utf8_encode [55357; 97]%N = [Byte.xef; Byte.xbf; Byte.xbd; Byte.x61].
Proof. reflexivity. Qed.

Example decode_scalars :
  decode [Byte.xef; Byte.xbb; Byte.xbf; Byte.x61; Byte.xc3; Byte.xa9;
          Byte.xf0; Byte.x9f; Byte.x98; Byte.x80; Byte.xff]
  = [97; 233; 55357; 56832; 65533]%N.
Proof. reflexivity. Qed.

Example metadataBytes_of_a_txt :
  length (metadataBytes_of a_txt) = 36%nat
  /\ Uint32Array_of 36 = [Byte.x24; Byte.x00; Byte.x00; Byte.x00].
Proof. split; reflexivity. Qed.

Example decryptFile_RangeError :
  decryptFile (received (container_of correct_horse world0
                           plaintext_of_two_octets))
    correct_horse (Some recorder) world0
  = (reports (Some recorder) [10; 20; 30; 50; 70] world0, inl RangeError).
Proof.
  apply (decryptFile_bad_length (list Z) _ correct_horse (Some recorder)
           world0 plaintext_of_two_octets).
  - apply (decryptedData_of_sealed (list Z) _ correct_horse world0).
    reflexivity.
  - reflexivity.
Qed.

Example decryptFile_SyntaxError :
  decryptFile (received (container_of correct_horse world0
                           plaintext_without_json))
    correct_horse (Some recorder) world0
  = (reports (Some recorder) [10; 20; 30; 50; 70] world0, inl SyntaxError).
Proof.
  apply (decryptFile_bad_json (list Z) _ correct_horse (Some recorder)
           world0 plaintext_without_json (Some 2)).
  - apply (decryptedData_of_sealed (list Z) _ correct_horse world0).
    reflexivity.
  - vm_compute. reflexivity.
  - vm_compute. reflexivity.
Qed.

Example decryptFile_TypeError :
  decryptFile (received (container_of correct_horse world0
                           plaintext_with_null))
    correct_horse (Some recorder) world0
  = (reports (Some recorder) [10; 20; 30; 50; 70; 100] world0, inl TypeError).
Proof.
  apply (decryptFile_null (list Z) _ correct_horse (Some recorder)
           world0 plaintext_with_null (Some 4)).
  - apply (decryptedData_of_sealed (list Z) _ correct_horse world0).
    reflexivity.
  - vm_compute. reflexivity.
  - vm_compute. reflexivity.
Qed.

Example progress_of_encryption :
  ui (fst (encryptFile a_txt correct_horse (Some recorder) world0))
  = [10; 20; 30; 50; 70; 90; 100].
Proof. rewrite encryptFile_eq. reflexivity. Qed.

Example progress_of_rejected_decryption :
  ui (fst (decryptFile (received (repeat Byte.x00 10)) correct_horse
             (Some recorder) world0))
  = [10; 20; 30; 50].
Proof.
  rewrite (decryptFile_rejected (list Z)).
  - reflexivity.
  - apply decryptedData_of_short. cbn. lia.
Qed.

End ExampleFacts.

(* ===================================================================== *)
(** * The claims *)

Section Claims.
Context {P : Platform} {ok : PlatformOk P}.
Variable UI : Type.
Implicit Types (w : World UI) (cb : option (callback UI)).

(** C1.  Decrypting the container that [encryptFile] returns,
    with the password of the encryption, returns the original bytes, the
    original filename unless it is empty (then ['archivo_descifrado']) and
    the original MIME type unless it is empty (then
    ['application/octet-stream']).  The filename and the type are
    JavaScript strings, and the metadata record is shorter than 2^32
    octets, as every record a browser can build is. *)
Theorem C1_encrypt_then_decrypt (file : File) (password : jsstring) cb w :
  is_jsstring (file_name file) -> is_jsstring (file_type file) ->
  Z.of_nat (length (metadataBytes_of file)) < 2 ^ 32 ->
  exists container w1,
    encryptFile file password cb w = (w1, inr container)
    /\ (forall file' cb' w',
          file_bytes file' = blob_bytes container ->
          decryptFile file' password cb' w'
          = (reports cb' [10; 20; 30; 50; 70; 100] w', inr (restored file)))
    /\ (file_name file <> [] -> file_type file <> [] ->
        restored file = original file).
Proof.
  intros Hname Htype Hlen.
  eexists. eexists. split; [ apply encryptFile_eq | ]. split.
  - intros file' cb' w' E. cbn [blob_bytes] in E.
    apply (decryptFile_encrypted UI file file' password w cb' w'); assumption.
  - intros Hn Ht. unfold restored, original, nonempty_or.
    destruct (file_name file); [ contradiction | ].
    destruct (file_type file); [ contradiction | ].
    reflexivity.
Qed.

(** C2.  [decryptFile] has no error of its own for a malformed container.
    An input shorter than 28 octets fails with the error of an
    authentication failure; an inner plaintext of one to three octets fails
    with a RangeError; metadata that does not parse fails with the
    SyntaxError of [JSON.parse]; and a length prefix that exceeds the rest
    of the plaintext is not an error: the metadata is what is there, and,
    when it is not [null] and its type converts to a string for the Blob,
    [decryptFile] returns, with an empty file content. *)
Theorem C2_malformed_container (file : File) (password : jsstring) cb w :
  ((length (file_bytes file) < 28)%nat ->
   decryptFile file password cb w
   = (reports cb [10; 20; 30; 50] w, inl (Error wrong_password_or_corrupt)))
  /\ (forall decryptedBytes,
        decryptedData_of file password = Some decryptedBytes ->
        (1 <= length decryptedBytes <= 3)%nat ->
        decryptFile file password cb w
        = (reports cb [10; 20; 30; 50; 70] w, inl RangeError))
  /\ (forall decryptedBytes metadataLength,
        decryptedData_of file password = Some decryptedBytes ->
        metadataLength_of decryptedBytes = inr metadataLength ->
        JSON_parse (metadataText_of decryptedBytes metadataLength) = None ->
        decryptFile file password cb w
        = (reports cb [10; 20; 30; 50; 70] w, inl SyntaxError))
  /\ (forall decryptedBytes n metadata blobType,
        decryptedData_of file password = Some decryptedBytes ->
        metadataLength_of decryptedBytes = inr (Some n) ->
        Z.of_nat (length decryptedBytes) < 4 + n ->
        JSON_parse (TextDecoder_decode (slice_from 4 decryptedBytes))
        = Some metadata ->
        metadata <> JNull ->
        ToString (type_of metadata) = inr blobType ->
        exists d,
          decryptFile file password cb w
          = (reports cb [10; 20; 30; 50; 70; 100] w, inr d)
          /\ blob_bytes (blob d) = []).
Proof.
  split; [ | split; [ | split ] ].
  - intros H. apply decryptFile_rejected.
    apply decryptedData_of_short. lia.
  - intros pt Hpt Hlen.
    apply (decryptFile_bad_length UI file password cb w pt RangeError Hpt).
    unfold metadataLength_of, slice, Uint32Array_first.
    rewrite skipn_O, Nat.sub_0_r, firstn_all2 by lia.
    destruct pt as [| a [| b [| c [| d pt]]]]; cbn [length] in Hlen;
      try lia; reflexivity.
  - intros pt ml Hpt Hml Hjson.
    apply (decryptFile_bad_json UI file password cb w pt ml Hpt Hml Hjson).
  - intros pt n metadata blobType Hpt Hn Hlen Hjson Hnull Htype.
    assert (Hend : slice 4 (metadata_end (Some n)) pt = slice_from 4 pt).
    { unfold slice, slice_from, metadata_end.
      apply firstn_all2. rewrite length_skipn. lia. }
    assert (Hrest : slice_from (metadata_end (Some n)) pt = []).
    { unfold slice_from, metadata_end. apply skipn_all2. lia. }
    eexists. split.
    + apply (decryptFile_returns UI file password cb w pt (Some n) metadata
               blobType Hpt Hn); [ | exact Hnull | exact Htype ].
      unfold metadataText_of. rewrite Hend. exact Hjson.
    + cbn [decrypted blob blob_bytes]. exact Hrest.
Qed.

(** C4.  Every decryption that AES-GCM rejects, whether the password is
    wrong or the ciphertext was altered or cut short, ends in the same
    error with the same message, after the same progress reports. *)
Theorem C4_one_error_for_every_cause
    (file1 file2 : File) (p1 p2 : jsstring) cb w :
  decryptedData_of file1 p1 = None ->
  decryptedData_of file2 p2 = None ->
  decryptFile file1 p1 cb w
  = (reports cb [10; 20; 30; 50] w, inl (Error wrong_password_or_corrupt))
  /\ decryptFile file2 p2 cb w = decryptFile file1 p1 cb w.
Proof.
  intros H1 H2.
  rewrite (decryptFile_rejected UI file1 p1 cb w H1).
  rewrite (decryptFile_rejected UI file2 p2 cb w H2).
  split; reflexivity.
Qed.


(** C7.  When the ciphertext decrypts and the metadata parses to something
    other than [null], a missing field is no error.  A record without
    [type] makes [decryptFile] return, with the type
    ['application/octet-stream'], and with the filename
    ['archivo_descifrado'] when it has no [name] either.  A record without
    [name] makes it return with the filename ['archivo_descifrado'] when
    the type it has converts to a string for the Blob.  Whenever
    [decryptFile] returns, a missing [name] has given the filename
    ['archivo_descifrado'] and a missing [type] the type
    ['application/octet-stream'].  And it fails only by a type that is
    there and does not convert to a string: a TypeError of the Blob. *)
Theorem C7_missing_fields (file : File) (password : jsstring) cb w
    (decryptedBytes : bytes) (metadataLength : option Z) (metadata : value) :
  decryptedData_of file password = Some decryptedBytes ->
  metadataLength_of decryptedBytes = inr metadataLength ->
  JSON_parse (metadataText_of decryptedBytes metadataLength) = Some metadata ->
  metadata <> JNull ->
  (property metadata (lit "type") = None ->
   exists d,
     decryptFile file password cb w
     = (reports cb [10; 20; 30; 50; 70; 100] w, inr d)
     /\ mimeType d = JString (lit "application/octet-stream")
     /\ blob_type (blob d) = JString (lit "application/octet-stream")
     /\ (property metadata (lit "name") = None ->
         filename d = JString (lit "archivo_descifrado")))
  /\ (property metadata (lit "name") = None ->
      forall blobType,
        ToString
          (or_else (property metadata (lit "type"))
             (JString (lit "application/octet-stream")))
        = inr blobType ->
        exists d,
          decryptFile file password cb w
          = (reports cb [10; 20; 30; 50; 70; 100] w, inr d)
          /\ filename d = JString (lit "archivo_descifrado")
          /\ blob_type (blob d) = JString blobType)
  /\ (forall w' d,
        decryptFile file password cb w = (w', inr d) ->
        (property metadata (lit "name") = None ->
         filename d = JString (lit "archivo_descifrado"))
        /\ (property metadata (lit "type") = None ->
            mimeType d = JString (lit "application/octet-stream")))
  /\ (forall w' e,
        decryptFile file password cb w = (w', inl e) ->
        e = TypeError
        /\ w' = reports cb [10; 20; 30; 50; 70; 100] w
        /\ exists v,
             property metadata (lit "type") = Some v
             /\ ToString v = inl TypeError).
Proof.
  intros H1 H2 H3 H4.
  split; [ | split; [ | split ] ].
  - intros Htype.
    assert (H5 : ToString (type_of metadata) = inr default_type).
    { unfold type_of. rewrite Htype. reflexivity. }
    eexists. split.
    { apply (decryptFile_returns UI file password cb w _ _ _ _ H1 H2 H3 H4
               H5). }
    unfold decrypted, type_of. cbn [filename mimeType blob blob_type].
    rewrite Htype. repeat split. intros ->. reflexivity.
  - intros Hname blobType H5.
    eexists. split.
    { apply (decryptFile_returns UI file password cb w _ _ _ _ H1 H2 H3 H4
               H5). }
    unfold decrypted. cbn [filename blob blob_type].
    rewrite Hname. split; reflexivity.
  - intros w' d Hd.
    destruct (ToString (type_of metadata)) as [e | blobType] eqn:H5.
    + rewrite (decryptFile_bad_type UI file password cb w _ _ _ _ H1 H2 H3 H4
                 H5) in Hd.
      discriminate.
    + rewrite (decryptFile_returns UI file password cb w _ _ _ _ H1 H2 H3 H4
                 H5) in Hd.
      injection Hd as _ <-.
      unfold decrypted, type_of. cbn [filename mimeType].
      split; intros ->; reflexivity.
  - intros w' e He.
    destruct (ToString (type_of metadata)) as [e' | blobType] eqn:H5.
    + rewrite (decryptFile_bad_type UI file password cb w _ _ _ _ H1 H2 H3 H4
                 H5) in He.
      injection He as <- <-.
      pose proof (ToString_throws _ _ H5) as ->.
      split; [ reflexivity | ]. split; [ reflexivity | ].
      unfold type_of in H5.
      destruct (property metadata (lit "type")) as [v |] eqn:Hv;
        [ | discriminate ].
      exists v. split; [ reflexivity | ].
      unfold or_else in H5. destruct (truthy (Some v)); [ exact H5 | ].
      discriminate.
    + rewrite (decryptFile_returns UI file password cb w _ _ _ _ H1 H2 H3 H4
                 H5) in He.
      discriminate.
Qed.

(** C9.  A file whose name is the empty string comes back with the filename
    ['archivo_descifrado'], and a file whose type is the empty string with
    the type ['application/octet-stream'], although the metadata record in
    the container holds the empty strings. *)
Theorem C9_empty_fields (file file' : File) (password : jsstring) w cb' w' :
  is_jsstring (file_name file) -> is_jsstring (file_type file) ->
  Z.of_nat (length (metadataBytes_of file)) < 2 ^ 32 ->
  file_bytes file' = encrypted_of file password w ->
  exists decryptedBytes metadataLength d,
    decryptedData_of file' password = Some decryptedBytes
    /\ metadataLength_of decryptedBytes = inr metadataLength
    /\ JSON_parse (metadataText_of decryptedBytes metadataLength)
       = Some (metadata_record (file_name file) (file_type file))
    /\ decryptFile file' password cb' w'
       = (reports cb' [10; 20; 30; 50; 70; 100] w', inr d)
    /\ (file_name file = [] ->
        filename d = JString (lit "archivo_descifrado"))
    /\ (file_type file = [] ->
        mimeType d = JString (lit "application/octet-stream")).
Proof.
  intros Hname Htype Hlen E.
  exists (plaintext_of file).
  exists (Some (Z.of_nat (length (metadataBytes_of file)) mod 2 ^ 32)).
  exists (restored file).
  split; [ apply (decryptedData_of_encrypted UI file file' password w E) | ].
  split; [ apply metadataLength_of_plaintext | ].
  split.
  { unfold metadataText_of.
    rewrite metadata_end_small, slice_metadata by exact Hlen.
    apply JSON_parse_stringify; assumption. }
  split.
  { apply (decryptFile_encrypted UI file file' password w cb' w');
      assumption. }
  unfold restored. cbn [filename mimeType].
  split; intros ->; reflexivity.
Qed.

End Claims.

Section ClaimOfTheOtherPassword.
Context {P : Platform} {ok : PlatformOk P} {authentic : Authentic P}.
Variable UI : Type.
Implicit Types (w : World UI) (cb : option (callback UI)).


End ClaimOfTheOtherPassword.

Section ClaimsOfEncryption.
Context {P : Platform}.
Variable UI : Type.

(** C5.  The container is the 16 octets of the salt, the 12 octets of the
    nonce, and the ciphertext, and nothing else: its length is
    16 + 12 + the length of the ciphertext. *)
Theorem C5_container_layout (file : File) (password : jsstring)
    (cb : option (callback UI)) (w : World UI) :
  exists w1 salt iv ciphertext,
    encryptFile file password cb w
    = (w1, inr {| blob_bytes := salt ++ iv ++ ciphertext;
                  blob_type := JString (lit "application/encrypted") |})
    /\ salt = salt_of w /\ iv = iv_of w
    /\ ciphertext
       = aes_gcm_encrypt (deriveKey password salt) iv (plaintext_of file)
    /\ length salt = 16%nat /\ length iv = 12%nat
    /\ length (salt ++ iv ++ ciphertext) = (16 + 12 + length ciphertext)%nat.
Proof.
  eexists. exists (salt_of w), (iv_of w). eexists.
  split; [ apply encryptFile_eq | ].
  split; [ reflexivity | ].
  split; [ reflexivity | ].
  split; [ reflexivity | ].
  split; [ apply salt_of_length | ].
  split; [ apply iv_of_length | ].
  rewrite !length_app, salt_of_length, iv_of_length. lia.
Qed.

(** C8.  An encryption given a callback returns, and has called the
    callback with 10, 20, 30, 50, 70, 90 and 100, in this order: integers
    that never decrease and end in 100. *)
Theorem C8_progress (file : File) (password : jsstring)
    (f : callback UI) (w : World UI) :
  exists w1 container trace,
    encryptFile file password (Some f) w = (w1, inr container)
    /\ ui w1 = fold_left (fun u p => f p u) trace (ui w)
    /\ trace = [10; 20; 30; 50; 70; 90; 100]
    /\ StronglySorted Z.le trace
    /\ last trace 0 = 100.
Proof.
  eexists. eexists. exists [10; 20; 30; 50; 70; 90; 100].
  split; [ apply encryptFile_eq | ].
  split; [ reflexivity | ].
  split; [ reflexivity | ].
  split; [ | reflexivity ].
  repeat (constructor; [ | repeat constructor; lia ]). constructor.
Qed.

End ClaimsOfEncryption.

(** ** The unit of a size *)

Lemma integer_logarithm_spec (bytes : N) :
  (1 <= bytes)%N ->
  (1024 ^ integer_logarithm bytes <= bytes
   < 1024 ^ (integer_logarithm bytes + 1))%N.
Proof.
  intros H. unfold integer_logarithm.
  destruct (N.log2_spec bytes) as [Hlo Hhi]; [ lia | ].
  change 1024%N with (2 ^ 10)%N. rewrite <- !N.pow_mul_r.
  split.
  - apply N.le_trans with (2 ^ N.log2 bytes)%N; [ | exact Hlo ].
    apply N.pow_le_mono_r; [ discriminate | ].
    apply N.Div0.mul_div_le.
  - apply N.lt_le_trans with (2 ^ N.succ (N.log2 bytes))%N; [ exact Hhi | ].
    apply N.pow_le_mono_r; [ discriminate | ].
    apply N.le_succ_l. rewrite N.add_1_r.
    apply N.mul_succ_div_gt. discriminate.
Qed.

Lemma integer_logarithm_unique (bytes i : N) :
  (1024 ^ i <= bytes < 1024 ^ (i + 1))%N -> integer_logarithm bytes = i.
Proof.
  change 1024%N with (2 ^ 10)%N. rewrite <- !N.pow_mul_r. intros [Hlo Hhi].
  assert (Hpos : (0 < bytes)%N).
  { apply N.lt_le_trans with (2 ^ (10 * i))%N; [ | exact Hlo ].
    apply N.neq_0_lt_0, N.pow_nonzero. discriminate. }
  assert (H1 : (10 * i <= N.log2 bytes)%N).
  { apply N.log2_le_pow2; assumption. }
  assert (H2 : (N.log2 bytes < 10 * (i + 1))%N).
  { apply N.log2_lt_pow2; assumption. }
  clear Hlo Hhi Hpos. unfold integer_logarithm.
  generalize dependent (N.log2 bytes). intros l H1 H2. symmetry.
  apply (N.div_unique _ _ _ (l - 10 * i)); lia.
Qed.

(** Up to 2^44 no byte count is close enough below a power of 1024 for
    the rounding to matter. *)
Lemma near_next_power_small (bytes : N) :
  (1 <= bytes <= 2 ^ 44)%N -> near_next_power bytes = false.
Proof.
  intros [H1 H44]. unfold near_next_power. apply N.ltb_ge.
  destruct (integer_logarithm_spec bytes H1) as [_ Hhi].
  revert Hhi H44. generalize (1024 ^ (integer_logarithm bytes + 1))%N.
  change (2 ^ 44)%N with 17592186044416%N. intros m Hhi H44. lia.
Qed.

Section UnitIndex.
Context {M : Math}.

Lemma unit_index_cases (bytes : N) :
  (near_next_power bytes && quotient_reaches_next bytes = false
   /\ unit_index bytes = integer_logarithm bytes)
  \/ (near_next_power bytes = true
      /\ quotient_reaches_next bytes = true
      /\ unit_index bytes = (integer_logarithm bytes + 1)%N).
Proof.
  unfold unit_index.
  destruct (near_next_power bytes); [ | left; split; reflexivity ].
  destruct (quotient_reaches_next bytes);
    [ right; repeat split | left; split; reflexivity ].
Qed.

Lemma unit_index_small (bytes : N) :
  (1 <= bytes <= 2 ^ 44)%N -> unit_index bytes = integer_logarithm bytes.
Proof.
  intros H. unfold unit_index.
  rewrite (near_next_power_small bytes H). reflexivity.
Qed.

Example formatFileSize_bytes : formatFileSize 1023 = "1023 B"%string.
Proof. reflexivity. Qed.

Example formatFileSize_kilobyte : formatFileSize 1024 = "1 KB"%string.
Proof. reflexivity. Qed.

Example formatFileSize_tie : formatFileSize 1280 = "1.3 KB"%string.
Proof. reflexivity. Qed.

Example formatFileSize_gigabytes :
  formatFileSize (5 * 1024 ^ 3 + 1024 ^ 3 / 2) = "5.5 GB"%string.
Proof. reflexivity. Qed.

Example formatFileSize_terabyte :
  formatFileSize (1024 ^ 4) = "1 undefined"%string.
Proof. reflexivity. Qed.

(** C10.  For a byte count of at least 1024^4 the unit index is at least 4
    and the lookup in the four units is out of bounds, so that the unit
    printed is [undefined]; for a byte count in [1, 1024^4) the index is in
    bounds; and 0 bytes is ['0 B'].  This holds whatever the rounding of the
    engine does to the quotient of the logarithms. *)
Theorem C10_unit_index (bytes : N) :
  ((1024 ^ 4 <= bytes)%N ->
   (4 <= unit_index bytes)%N
   /\ sizes_at (unit_index bytes) = None
   /\ formatFileSize bytes
      = String.append (number_to_string (tenths bytes (unit_index bytes)))
          " undefined")
  /\ ((1 <= bytes < 1024 ^ 4)%N ->
      (unit_index bytes < 4)%N
      /\ exists u, sizes_at (unit_index bytes) = Some u /\ In u sizes)
  /\ formatFileSize 0 = "0 B"%string.
Proof.
  split; [ | split; [ | reflexivity ] ].
  - intros H.
    assert (H40 : (40 <= N.log2 bytes)%N).
    { apply N.log2_le_pow2; [ lia | exact H ]. }
    assert (Hexact : (4 <= integer_logarithm bytes)%N).
    { unfold integer_logarithm. apply N.div_le_lower_bound; lia. }
    assert (H4 : (4 <= unit_index bytes)%N).
    { destruct (unit_index_cases bytes) as [[_ ->] | [_ [_ ->]]]; lia. }
    assert (Hnone : sizes_at (unit_index bytes) = None).
    { unfold sizes_at. apply nth_error_None. cbn [sizes length]. lia. }
    split; [ exact H4 | ]. split; [ exact Hnone | ].
    unfold formatFileSize.
    destruct (N.eqb_spec bytes 0) as [E | _]; [ lia | ].
    cbv zeta. rewrite Hnone. reflexivity.
  - intros [H1 H2].
    assert (H40 : (N.log2 bytes < 40)%N).
    { apply N.log2_lt_pow2; [ lia | exact H2 ]. }
    assert (Hi : (unit_index bytes < 4)%N).
    { rewrite unit_index_small by (split; [ exact H1 | ]; lia).
      unfold integer_logarithm. apply N.Div0.div_lt_upper_bound. lia. }
    split; [ exact Hi | ].
    unfold sizes_at.
    destruct (nth_error sizes (N.to_nat (unit_index bytes))) as [u |] eqn:E.
    + exists u. split; [ reflexivity | ]. apply (nth_error_In _ _ E).
    + apply nth_error_None in E. cbn [sizes length] in E. lia.
Qed.

End UnitIndex.

(** At 2^50 - 1 the engine decides: where its quotient reaches 5, the size
    is printed as 1 of the sixth unit; where it does not, as 1024 of the
    fifth. *)
Example formatFileSize_below_1024_5 :
  @formatFileSize Reference.math (1024 ^ 5 - 1) = "1 undefined"%string
  /\ @formatFileSize Reference.exact_math (1024 ^ 5 - 1)
     = "1024 undefined"%string
  /\ @unit_index Reference.math (1024 ^ 5 - 1) = 5%N
  /\ @unit_index Reference.math (1024 ^ 5 - 4) = 4%N
  /\ @unit_index Reference.math (1024 ^ 4 - 1) = 3%N.
Proof. repeat split. Qed.

(* ===================================================================== *)
(** * The claims on the reference platform *)

Module Witnesses.
Import Reference ReferenceFacts ExampleFacts.

Lemma is_jsstring_lit (s : string) : is_jsstring (lit s).
Proof.
  unfold is_jsstring, lit. apply Forall_map, Forall_forall. intros a _.
  unfold is_code_unit. pose proof (N_ascii_bounded a). lia.
Qed.

Lemma C1_encrypt_then_decrypt_witness :
  exists container w1,
    encryptFile a_txt correct_horse (Some recorder) world0
    = (w1, inr container)
    /\ (forall file' (cb' : option (callback (list Z))) w',
          file_bytes file' = blob_bytes container ->
          decryptFile file' correct_horse cb' w'
          = (reports cb' [10; 20; 30; 50; 70; 100] w', inr (restored a_txt)))
    /\ (file_name a_txt <> [] -> file_type a_txt <> [] ->
        restored a_txt = original a_txt).
Proof.
  apply (@C1_encrypt_then_decrypt platform platform_ok (list Z)
           a_txt correct_horse (Some recorder) world0).
  - apply is_jsstring_lit.
  - apply is_jsstring_lit.
  - vm_compute. reflexivity.
Defined.

(** C1 as stated fails for a file without a name: the name that comes back
    is not the empty one. *)
Lemma C1_counterexample_empty_name :
  exists container w1 d,
    encryptFile anonymous correct_horse None world0 = (w1, inr container)
    /\ decryptFile (received (blob_bytes container)) correct_horse None w1
       = (w1, inr d)
    /\ filename d = JString (lit "archivo_descifrado")
    /\ d <> original anonymous.
Proof.
  eexists. eexists. exists (restored anonymous).
  split; [ apply encryptFile_eq | ]. split; [ | split ].
  - cbn [blob_bytes].
    rewrite (decryptFile_encrypted (list Z) anonymous
               (received (encrypted_of anonymous correct_horse world0))
               correct_horse world0 None).
    + reflexivity.
    + constructor.
    + constructor.
    + vm_compute. reflexivity.
    + reflexivity.
  - reflexivity.
  - discriminate.
Qed.

Lemma C2_malformed_container_witness :
  decryptFile (received (repeat Byte.x00 10)) correct_horse (Some recorder)
    world0
  = (reports (Some recorder) [10; 20; 30; 50] world0,
     inl (Error wrong_password_or_corrupt)).
Proof.
  apply (proj1 (@C2_malformed_container platform platform_ok (list Z)
                  (received (repeat Byte.x00 10)) correct_horse
                  (Some recorder) world0)).
  cbn. lia.
Defined.

(** C2 as stated fails twice: a ten-octet input fails with the error of an
    authentication failure, and a container whose length prefix says 1000
    where 16 octets follow decrypts without any error. *)
Lemma C2_counterexample_no_malformed_error :
  snd (decryptFile (received (repeat Byte.x00 10)) correct_horse None world0)
  = inl (Error wrong_password_or_corrupt)
  /\ metadataLength_of plaintext_with_long_prefix = inr (Some 1000)
  /\ length plaintext_with_long_prefix = 20%nat
  /\ exists d,
       snd (decryptFile
              (received (container_of correct_horse world0
                           plaintext_with_long_prefix))
              correct_horse None world0)
       = inr d.
Proof.
  split; [ | split; [ | split ] ].
  - rewrite (decryptFile_rejected (list Z)).
    + reflexivity.
    + apply decryptedData_of_short. cbn. lia.
  - vm_compute. reflexivity.
  - reflexivity.
  - exists (decrypted plaintext_with_long_prefix (Some 1000)
              (JObject [(lit "name", JString (lit "a.txt"))])
              (lit "application/octet-stream")).
    assert (H1 : decryptedData_of
                   (received (container_of correct_horse world0
                                plaintext_with_long_prefix))
                   correct_horse
                 = Some plaintext_with_long_prefix).
    { apply (decryptedData_of_sealed (list Z) _ correct_horse world0).
      reflexivity. }
    assert (H2 : metadataLength_of plaintext_with_long_prefix
                 = inr (Some 1000)).
    { vm_compute. reflexivity. }
    assert (H3 : JSON_parse
                   (metadataText_of plaintext_with_long_prefix (Some 1000))
                 = Some (JObject [(lit "name", JString (lit "a.txt"))])).
    { vm_compute. reflexivity. }
    assert (H4 : JObject [(lit "name", JString (lit "a.txt"))] <> JNull)
      by discriminate.
    assert (H5 : ToString
                   (type_of (JObject [(lit "name", JString (lit "a.txt"))]))
                 = inr (lit "application/octet-stream")).
    { reflexivity. }
    pose proof (decryptFile_returns (list Z) _ correct_horse None world0
                  _ _ _ _ H1 H2 H3 H4 H5) as R.
    rewrite R. reflexivity.
Qed.



Lemma C4_one_error_for_every_cause_witness :
  decryptFile (received (encrypted_of a_txt correct_horse world0))
    wrong_horse (Some recorder) world0
  = (reports (Some recorder) [10; 20; 30; 50] world0,
     inl (Error wrong_password_or_corrupt))
  /\ decryptFile
       (received (firstn 40 (encrypted_of a_txt correct_horse world0)))
       correct_horse (Some recorder) world0
     = decryptFile (received (encrypted_of a_txt correct_horse world0))
         wrong_horse (Some recorder) world0.
Proof.
  apply (@C4_one_error_for_every_cause platform (list Z)).
  - rewrite (decryptedData_of_container (list Z)
               (received (encrypted_of a_txt correct_horse world0))
               correct_horse wrong_horse world0 (plaintext_of a_txt) eq_refl).
    apply wrong_horse_rejected.
  - apply decryptedData_of_short. cbn [received file_bytes].
    rewrite length_firstn. lia.
Defined.


Lemma C7_missing_fields_witness :
  exists d,
    decryptFile
      (received (container_of correct_horse world0 plaintext_without_name))
      correct_horse (Some recorder) world0
    = (reports (Some recorder) [10; 20; 30; 50; 70; 100] world0, inr d)
    /\ filename d = JString (lit "archivo_descifrado")
    /\ blob_type (blob d) = JString (lit "text/plain").
Proof.
  destruct (@C7_missing_fields platform (list Z)
              (received
                 (container_of correct_horse world0 plaintext_without_name))
              correct_horse (Some recorder) world0
              plaintext_without_name (Some 21)
              (JObject [(lit "type", JString (lit "text/plain"))]))
    as [_ [Hname _]].
  - apply (decryptedData_of_sealed (list Z) _ correct_horse world0).
    reflexivity.
  - vm_compute. reflexivity.
  - vm_compute. reflexivity.
  - discriminate.
  - apply (Hname eq_refl (lit "text/plain")). reflexivity.
Defined.

(** C7 as stated fails: a record without a name, whose type is an object
    with a property [toString], decrypts and parses, and [decryptFile]
    throws the TypeError of the Blob where the placeholder was to be
    returned. *)
Lemma C7_counterexample_unconvertible_type :
  decryptedData_of
    (received
       (container_of correct_horse world0 plaintext_with_unconvertible_type))
    correct_horse
  = Some plaintext_with_unconvertible_type
  /\ metadataLength_of plaintext_with_unconvertible_type = inr (Some 26)
  /\ JSON_parse (metadataText_of plaintext_with_unconvertible_type (Some 26))
     = Some (JObject [(lit "type", JObject [(lit "toString", JNull)])])
  /\ property (JObject [(lit "type", JObject [(lit "toString", JNull)])])
       (lit "name")
     = None
  /\ decryptFile
       (received
          (container_of correct_horse world0
             plaintext_with_unconvertible_type))
       correct_horse (Some recorder) world0
     = (reports (Some recorder) [10; 20; 30; 50; 70; 100] world0,
        inl TypeError).
Proof.
  assert (H1 : decryptedData_of
                 (received
                    (container_of correct_horse world0
                       plaintext_with_unconvertible_type))
                 correct_horse
               = Some plaintext_with_unconvertible_type).
  { apply (decryptedData_of_sealed (list Z) _ correct_horse world0).
    reflexivity. }
  assert (H2 : metadataLength_of plaintext_with_unconvertible_type
               = inr (Some 26)).
  { vm_compute. reflexivity. }
  assert (H3 : JSON_parse
                 (metadataText_of plaintext_with_unconvertible_type (Some 26))
               = Some (JObject
                         [(lit "type", JObject [(lit "toString", JNull)])])).
  { vm_compute. reflexivity. }
  split; [ exact H1 | ]. split; [ exact H2 | ]. split; [ exact H3 | ].
  split; [ reflexivity | ].
  apply (decryptFile_bad_type (list Z) _ correct_horse (Some recorder) world0
           _ _ _ TypeError H1 H2 H3).
  - discriminate.
  - reflexivity.
Qed.

Lemma C9_empty_fields_witness :
  exists decryptedBytes metadataLength d,
    decryptedData_of (received (encrypted_of anonymous correct_horse world0))
      correct_horse = Some decryptedBytes
    /\ metadataLength_of decryptedBytes = inr metadataLength
    /\ JSON_parse (metadataText_of decryptedBytes metadataLength)
       = Some (metadata_record (file_name anonymous) (file_type anonymous))
    /\ decryptFile (received (encrypted_of anonymous correct_horse world0))
         correct_horse (Some recorder) world0
       = (reports (Some recorder) [10; 20; 30; 50; 70; 100] world0, inr d)
    /\ (file_name anonymous = [] ->
        filename d = JString (lit "archivo_descifrado"))
    /\ (file_type anonymous = [] ->
        mimeType d = JString (lit "application/octet-stream")).
Proof.
  apply (@C9_empty_fields platform platform_ok (list Z) anonymous
           (received (encrypted_of anonymous correct_horse world0))
           correct_horse world0 (Some recorder) world0).
  - constructor.
  - constructor.
  - vm_compute. reflexivity.
  - reflexivity.
Defined.

End Witnesses.

(* ===================================================================== *)
(** * Further properties *)

(** ** The strength of a password *)

Lemma existsb_extension {A} (f : A -> bool) (pre p post : list A) :
  existsb f p = true -> existsb f (pre ++ p ++ post) = true.
Proof.
  intros H. rewrite !existsb_app, H. apply orb_true_iff. right. reflexivity.
Qed.

Lemma incr_le (b1 b2 : bool) (m n : nat) :
  (b1 = true -> b2 = true) -> (m <= n)%nat -> (incr b1 m <= incr b2 n)%nat.
Proof.
  intros Hb Hmn. unfold incr.
  destruct b1; [ rewrite Hb by reflexivity | destruct b2 ]; lia.
Qed.

Lemma incr_bounds (b : bool) (n : nat) : (n <= incr b n <= S n)%nat.
Proof. destruct b; cbn [incr]; lia. Qed.

Lemma score_of_extension (pre p post : jsstring) :
  (score_of p <= score_of (pre ++ p ++ post))%nat.
Proof.
  unfold score_of, test.
  assert (Hlen : (length p <= length (pre ++ p ++ post))%nat).
  { rewrite !length_app. lia. }
  repeat apply incr_le; try lia.
  - apply existsb_extension.
  - apply existsb_extension.
  - intros H. apply andb_true_iff in H. destruct H as [Hu Hl].
    apply andb_true_iff. split; apply existsb_extension; assumption.
  - intros H. apply Nat.leb_le in H. apply Nat.leb_le. lia.
  - intros H. apply Nat.leb_le in H. apply Nat.leb_le. lia.
Qed.

(** The level is the score, kept between 1 and 4. *)
Lemma level_of_score (password : jsstring) :
  password <> [] ->
  level (getPasswordStrength password)
  = Nat.min 4 (Nat.max 1 (score_of password)).
Proof.
  intros H. unfold getPasswordStrength.
  destruct password as [| c rest]; [ contradiction | ].
  generalize (score_of (c :: rest)). intros n.
  destruct n as [| [| [| [| n]]]]; reflexivity.
Qed.

Lemma test_false (class : code_unit -> bool) (s : jsstring) :
  Forall (fun c => class c = false) s -> test class s = false.
Proof.
  unfold test. induction 1 as [| c s Hc _ IH]; cbn [existsb].
  - reflexivity.
  - rewrite Hc, IH. reflexivity.
Qed.

Lemma test_true (class : code_unit -> bool) (s : jsstring) :
  s <> [] -> Forall (fun c => class c = true) s -> test class s = true.
Proof.
  unfold test. intros Hs H. destruct H as [| c s Hc _]; [ contradiction | ].
  cbn [existsb]. rewrite Hc. reflexivity.
Qed.

Lemma classes_disjoint (c : code_unit) :
  (lower c = true -> upper c = false /\ digit c = false /\ symbol c = false)
  /\ (upper c = true -> lower c = false /\ digit c = false /\ symbol c = false)
  /\ (digit c = true -> lower c = false /\ upper c = false /\ symbol c = false).
Proof.
  unfold symbol, lower, upper, digit, in_range.
  repeat split;
    match goal with
    | H : _ = true |- _ => apply andb_true_iff in H; destruct H as [H1 H2]
    end;
    apply N.leb_le in H1; apply N.leb_le in H2;
    repeat match goal with
           | |- context [(?a <=? ?b)%N] => destruct (N.leb_spec a b)
           end; cbn; try reflexivity; lia.
Qed.

(** X1.  The meter is hidden for the empty password and for no other.
    When it is shown, its four bars are the first [level] ones in the
    colour of the strength and the rest in [bg-muted], which is none of the
    colours of a strength, and [level] is between 1 and 4. *)
Theorem meter_shows_level (password : jsstring) :
  (meter password = None <-> password = [])
  /\ (password <> [] ->
      let strength := getPasswordStrength password in
      (1 <= level strength <= 4)%nat
      /\ color strength <> lit "bg-muted"
      /\ meter password
         = Some (repeat (color strength) (level strength)
                   ++ repeat (lit "bg-muted") (4 - level strength),
                 label strength)).
Proof.
  split.
  - destruct password; cbn [meter]; split; intros H; try discriminate;
      reflexivity.
  - intros H. destruct password as [| c rest]; [ contradiction | ].
    cbn zeta. unfold meter, getPasswordStrength.
    generalize (score_of (c :: rest)). intros n.
    destruct n as [| [| [| [| n]]]];
      (split; [ cbn; lia | split; [ discriminate | reflexivity ] ]).
Qed.

(** X2.  A longer password is never weaker: adding code units before or
    after a password does not lower its level. *)
Theorem getPasswordStrength_extension (pre password post : jsstring) :
  (level (getPasswordStrength password)
   <= level (getPasswordStrength (pre ++ password ++ post)))%nat.
Proof.
  destruct password as [| c rest].
  - cbn [getPasswordStrength level]. lia.
  - rewrite !level_of_score.
    + pose proof (score_of_extension pre (c :: rest) post). lia.
    + intros H. apply (f_equal (@length _)) in H.
      rewrite !length_app in H. cbn [length] in H. lia.
    + discriminate.
Qed.

(** X3.  The length bounds the level from both sides: a password of fewer
    than 8 code units is never ['Excelente'], whatever it is made of, and
    one of 12 or more is never ['Débil']; ['Excelente'] takes, besides 8
    code units, one more of: 12 code units, both cases, a digit, a
    symbol. *)
Theorem getPasswordStrength_length (password : jsstring) :
  ((length password < 8)%nat ->
   (level (getPasswordStrength password) <= 3)%nat)
  /\ ((12 <= length password)%nat ->
      (2 <= level (getPasswordStrength password))%nat)
  /\ (level (getPasswordStrength password) = 4%nat ->
      (8 <= length password)%nat
      /\ ((12 <= length password)%nat
          \/ (test upper password = true /\ test lower password = true)
          \/ test digit password = true
          \/ test symbol password = true)).
Proof.
  destruct password as [| c rest].
  { cbn. repeat split; try lia; discriminate. }
  rewrite level_of_score by discriminate.
  unfold score_of. generalize (c :: rest). intros p.
  destruct (Nat.leb_spec 8 (length p)) as [H8 | H8];
    destruct (Nat.leb_spec 12 (length p)) as [H12 | H12]; try lia;
    destruct (test upper p), (test lower p), (test digit p), (test symbol p);
    cbn; repeat split; intros; try lia; auto 6.
Qed.

(** X4.  Letters of one case only, however many, are never better than
    ['Regular']: the level is 1 below 12 code units and 2 from there on.
    Digits only are never better than ['Buena']: the level is 1 below 8
    code units, 2 below 12 and 3 from there on. *)
Theorem getPasswordStrength_one_class (password : jsstring) :
  password <> [] ->
  ((Forall (fun c => lower c = true) password
    \/ Forall (fun c => upper c = true) password) ->
   level (getPasswordStrength password)
   = if (12 <=? length password)%nat then 2%nat else 1%nat)
  /\ (Forall (fun c => digit c = true) password ->
      level (getPasswordStrength password)
      = if (12 <=? length password)%nat then 3%nat
        else if (8 <=? length password)%nat then 2%nat else 1%nat).
Proof.
  intros Hne. rewrite level_of_score by exact Hne. unfold score_of.
  split.
  - intros H.
    assert (Hcase : test upper password && test lower password = false).
    { destruct H as [H | H].
      - rewrite (test_false upper), andb_false_l; [ reflexivity | ].
        eapply Forall_impl; [ | exact H ]. intros c Hc.
        apply (proj1 (classes_disjoint c) Hc).
      - rewrite (test_false lower), andb_false_r; [ reflexivity | ].
        eapply Forall_impl; [ | exact H ]. intros c Hc.
        apply (proj1 (proj2 (classes_disjoint c)) Hc). }
    assert (Hdigit : test digit password = false).
    { apply test_false. destruct H as [H | H];
        (eapply Forall_impl; [ | exact H ]); intros c Hc.
      - apply (proj1 (classes_disjoint c) Hc).
      - apply (proj1 (proj2 (classes_disjoint c)) Hc). }
    assert (Hsymbol : test symbol password = false).
    { apply test_false. destruct H as [H | H];
        (eapply Forall_impl; [ | exact H ]); intros c Hc.
      - apply (proj1 (classes_disjoint c) Hc).
      - apply (proj1 (proj2 (classes_disjoint c)) Hc). }
    rewrite Hcase, Hdigit, Hsymbol.
    destruct (Nat.leb_spec 8 (length password));
      destruct (Nat.leb_spec 12 (length password)); try lia; reflexivity.
  - intros H.
    assert (Hcase : test upper password && test lower password = false).
    { rewrite (test_false upper), andb_false_l; [ reflexivity | ].
      eapply Forall_impl; [ | exact H ]. intros c Hc.
      apply (proj2 (proj2 (classes_disjoint c)) Hc). }
    assert (Hdigit : test digit password = true).
    { apply test_true; assumption. }
    assert (Hsymbol : test symbol password = false).
    { apply test_false. eapply Forall_impl; [ | exact H ]. intros c Hc.
      apply (proj2 (proj2 (classes_disjoint c)) Hc). }
    rewrite Hcase, Hdigit, Hsymbol.
    destruct (Nat.leb_spec 8 (length password));
      destruct (Nat.leb_spec 12 (length password)); try lia; reflexivity.
Qed.

(** ** The size of a file, formatted *)

Lemma tenths_unique (bytes i t : N) :
  (t * (2 * 1024 ^ i) <= 20 * bytes + 1024 ^ i < (t + 1) * (2 * 1024 ^ i))%N ->
  tenths bytes i = t.
Proof.
  unfold tenths. generalize (1024 ^ i)%N. intros m H. symmetry.
  apply (N.div_unique _ _ _ (20 * bytes + m - t * (2 * m))); lia.
Qed.

Lemma pow_1024_pos (i : N) : (1 <= 1024 ^ i)%N.
Proof.
  pose proof (N.pow_nonzero 1024 i). lia.
Qed.

Lemma append_empty_r (s : string) : String.append s EmptyString = s.
Proof.
  induction s as [| c s IH]; cbn [String.append]; [ | rewrite IH ];
    reflexivity.
Qed.

Section FormattedSize.
Context {M : Math}.

(** X5.  A size of 1 to 1023 bytes is printed as it is, in decimal and
    without a fraction, followed by [B]. *)
Theorem formatFileSize_below_1024 (bytes : N) :
  (1 <= bytes < 1024)%N ->
  formatFileSize bytes = String.append (decimal bytes) " B".
Proof.
  intros H. unfold formatFileSize.
  destruct (N.eqb_spec bytes 0) as [E | _]; [ lia | ].
  rewrite unit_index_small by (split; lia).
  rewrite (integer_logarithm_unique bytes 0)
    by (change (1024 ^ 0)%N with 1%N; change (1024 ^ (0 + 1))%N with 1024%N;
        lia).
  rewrite (tenths_unique bytes 0 (10 * bytes))
    by (change (1024 ^ 0)%N with 1%N; lia).
  unfold number_to_string.
  rewrite N.mul_comm, N.Div0.mod_mul, N.div_mul by discriminate.
  cbn [N.eqb]. rewrite append_empty_r. reflexivity.
Qed.

(** X6.  For every size of at least one byte the number printed is between
    1 and 1024: its tenths are between 10 and 10240, whichever way the
    engine rounds the quotient of the logarithms. *)
Theorem formatFileSize_number_range (bytes : N) :
  (1 <= bytes)%N ->
  formatFileSize bytes
  = String.append (number_to_string (tenths bytes (unit_index bytes)))
      (String.append " "
         match sizes_at (unit_index bytes) with
         | Some u => u
         | None => "undefined"%string
         end)
  /\ (10 <= tenths bytes (unit_index bytes) <= 10240)%N.
Proof.
  intros H. split.
  - unfold formatFileSize.
    destruct (N.eqb_spec bytes 0) as [E | _]; [ lia | reflexivity ].
  - destruct (integer_logarithm_spec bytes H) as [Hlo Hhi].
    destruct (unit_index_cases bytes) as [[_ ->] | [Hnear [_ ->]]].
    + generalize dependent (integer_logarithm bytes). intros i Hlo Hhi.
      rewrite N.pow_add_r, N.pow_1_r in Hhi.
      pose proof (pow_1024_pos i) as Hm.
      unfold tenths. generalize dependent (1024 ^ i)%N. intros m Hlo Hhi Hm.
      split.
      * apply N.div_le_lower_bound; lia.
      * assert (Hlt : ((20 * bytes + m) / (2 * m) < 10241)%N).
        { apply N.Div0.div_lt_upper_bound. lia. }
        lia.
    + unfold near_next_power in Hnear. apply N.ltb_lt in Hnear.
      clear Hlo. revert Hhi Hnear.
      unfold tenths.
      generalize (1024 ^ (integer_logarithm bytes + 1))%N.
      change (2 ^ 44)%N with 17592186044416%N. intros m Hhi Hnear.
      assert (E : ((20 * bytes + m) / (2 * m) = 10)%N).
      { symmetry. apply (N.div_unique _ _ _ (20 * bytes + m - 20 * m)); lia. }
      rewrite E. lia.
Qed.

(** X7.  The number 1024 is printed.  A size less than a twentieth of a
    unit below the next unit is printed as 1024 of its own unit, as 1048575
    bytes is ['1024 KB'], unless it is so close below the next unit that
    the engine's quotient reaches the next index: then it is printed as 1
    of the next unit.  Below 1024^4 no size is that close. *)
Theorem formatFileSize_rounds_to_1024 (bytes i : N) :
  (bytes < 1024 ^ (i + 1))%N ->
  (20480 * 1024 ^ i <= 20 * bytes + 1024 ^ i)%N ->
  formatFileSize bytes
  = (if near_next_power bytes && quotient_reaches_next bytes
     then String.append "1 "
            match sizes_at (i + 1) with
            | Some u => u
            | None => "undefined"%string
            end
     else String.append "1024 "
            match sizes_at i with
            | Some u => u
            | None => "undefined"%string
            end)
  /\ ((i <= 3)%N ->
      formatFileSize bytes
      = String.append "1024 "
          match sizes_at i with Some u => u | None => "undefined"%string end).
Proof.
  intros Hhi Hlo.
  pose proof (pow_1024_pos i) as Hm.
  assert (Hi : integer_logarithm bytes = i).
  { apply integer_logarithm_unique. split; [ lia | exact Hhi ]. }
  assert (Hpos : bytes <> 0%N) by lia.
  assert (Hexact : tenths bytes i = 10240%N).
  { apply tenths_unique. rewrite N.pow_add_r, N.pow_1_r in Hhi. lia. }
  assert (Hformat :
            formatFileSize bytes
            = if near_next_power bytes && quotient_reaches_next bytes
              then String.append "1 "
                     match sizes_at (i + 1) with
                     | Some u => u
                     | None => "undefined"%string
                     end
              else String.append "1024 "
                     match sizes_at i with
                     | Some u => u
                     | None => "undefined"%string
                     end).
  { unfold formatFileSize.
    destruct (N.eqb_spec bytes 0) as [E | _]; [ contradiction | ].
    cbv zeta.
    destruct (unit_index_cases bytes) as [[Hno ->] | [Hnear [Hup ->]]].
    - rewrite Hno, Hi, Hexact. reflexivity.
    - rewrite Hnear, Hup, Hi. cbn [andb].
      assert (Hnext : tenths bytes (i + 1) = 10%N).
      { apply tenths_unique.
        unfold near_next_power in Hnear. apply N.ltb_lt in Hnear.
        rewrite Hi in Hnear. revert Hhi Hnear.
        generalize (1024 ^ (i + 1))%N.
        change (2 ^ 44)%N with 17592186044416%N. intros m Hhi Hnear. lia. }
      rewrite Hnext. reflexivity. }
  split; [ exact Hformat | ].
  intros Hi3. rewrite Hformat.
  rewrite near_next_power_small; [ reflexivity | ].
  split; [ lia | ].
  assert (Hpow : (1024 ^ (i + 1) <= 1024 ^ 4)%N).
  { apply N.pow_le_mono_r; lia. }
  change (1024 ^ 4)%N with 1099511627776%N in Hpow.
  change (2 ^ 44)%N with 17592186044416%N. lia.
Qed.

End FormattedSize.

(** ** The outcomes of the cipher *)

Lemma Uint32Array_first_throws (buffer : bytes) (e : exn) :
  Uint32Array_first buffer = inl e -> e = RangeError.
Proof.
  unfold Uint32Array_first.
  destruct (length buffer mod 4 =? 0)%nat; congruence.
Qed.

Lemma Uint32Array_first_bound (buffer : bytes) (n : Z) :
  Uint32Array_first buffer = inr (Some n) -> 0 <= n < 2 ^ 32.
Proof.
  unfold Uint32Array_first.
  destruct (length buffer mod 4 =? 0)%nat; [ | discriminate ].
  destruct buffer as [| b rest]; [ discriminate | ].
  intros H.
  assert (E : n = le_combine (firstn 4 (b :: rest))) by congruence.
  clear H. rewrite E.
  pose proof (le_combine_bound (firstn 4 (b :: rest))) as Hb.
  rewrite length_firstn in Hb.
  assert (Hpow : 2 ^ (8 * Z.of_nat (Nat.min 4 (length (b :: rest))))
                 <= 2 ^ 32).
  { apply Z.pow_le_mono_r; lia. }
  lia.
Qed.

Lemma slices_partition (a : bytes) (m : nat) :
  (4 <= m)%nat -> slice 0 4 a ++ slice 4 m a ++ slice_from m a = a.
Proof.
  intros H. unfold slice, slice_from.
  rewrite skipn_O, Nat.sub_0_r.
  replace (skipn m a) with (skipn (m - 4) (skipn 4 a))
    by (rewrite skipn_skipn; f_equal; lia).
  rewrite firstn_skipn. apply firstn_skipn.
Qed.

Section CipherOutcomes.
Context {P : Platform}.
Variable UI : Type.
Implicit Types (w : World UI) (cb : option (callback UI)).

Lemma decryptFile_outcome (file : File) (password : jsstring) cb w :
  decryptFile file password cb w
  = (reports cb (fst (outcome_of file password)) w,
     snd (outcome_of file password)).
Proof.
  unfold outcome_of.
  destruct (decryptedData_of file password) as [pt |] eqn:H1.
  - destruct (metadataLength_of pt) as [e | ml] eqn:H2.
    + apply (decryptFile_bad_length UI file password cb w pt e H1 H2).
    + destruct (JSON_parse (metadataText_of pt ml)) as [metadata |] eqn:H3.
      * destruct metadata;
          try (match goal with
               | |- context [ToString (type_of ?m)] =>
                 assert (H4 : m <> JNull) by discriminate;
                 destruct (ToString (type_of m)) as [e | blobType] eqn:H5
               end;
               [ apply (decryptFile_bad_type UI file password cb w pt ml _ e
                          H1 H2 H3 H4 H5)
               | apply (decryptFile_returns UI file password cb w pt ml _
                          blobType H1 H2 H3 H4 H5) ]).
        apply (decryptFile_null UI file password cb w pt ml H1 H2 H3).
      * apply (decryptFile_bad_json UI file password cb w pt ml H1 H2 H3).
  - apply (decryptFile_rejected UI file password cb w H1).
Qed.

Lemma outcome_of_cases (file : File) (password : jsstring) :
  outcome_of file password
  = ([10; 20; 30; 50], inl (Error wrong_password_or_corrupt))
  \/ (exists e, outcome_of file password = ([10; 20; 30; 50; 70], inl e))
  \/ (exists e,
         outcome_of file password = ([10; 20; 30; 50; 70; 100], inl e))
  \/ (exists d,
         outcome_of file password = ([10; 20; 30; 50; 70; 100], inr d)).
Proof.
  unfold outcome_of.
  destruct (decryptedData_of file password) as [pt |]; [ | left; reflexivity ].
  destruct (metadataLength_of pt) as [e | ml];
    [ right; left; eexists; reflexivity | ].
  destruct (JSON_parse (metadataText_of pt ml)) as [metadata |];
    [ | right; left; eexists; reflexivity ].
  destruct metadata;
    try (match goal with
         | |- context [ToString (type_of ?m)] =>
           destruct (ToString (type_of m))
         end;
         [ right; right; left; eexists; reflexivity
         | right; right; right; eexists; reflexivity ]).
  right; right; left; eexists; reflexivity.
Qed.

(** X8.  With a callback that returns, or with none, [decryptFile] ends in
    one of five ways and in no other: the error of its own after the
    reports 10, 20, 30, 50; a RangeError or a SyntaxError after the report
    of 70; a TypeError or a result after the report of 100.  It never
    reports 90, and a failed decryption reports 100 only when the metadata
    is [null] or its type does not convert to a string. *)
Theorem decryptFile_outcomes (file : File) (password : jsstring) cb w :
  decryptFile file password cb w
  = (reports cb [10; 20; 30; 50] w, inl (Error wrong_password_or_corrupt))
  \/ decryptFile file password cb w
     = (reports cb [10; 20; 30; 50; 70] w, inl RangeError)
  \/ decryptFile file password cb w
     = (reports cb [10; 20; 30; 50; 70] w, inl SyntaxError)
  \/ decryptFile file password cb w
     = (reports cb [10; 20; 30; 50; 70; 100] w, inl TypeError)
  \/ exists d,
       decryptFile file password cb w
       = (reports cb [10; 20; 30; 50; 70; 100] w, inr d).
Proof.
  rewrite decryptFile_outcome. unfold outcome_of.
  destruct (decryptedData_of file password) as [pt |]; [ | left; reflexivity ].
  destruct (metadataLength_of pt) as [e | ml] eqn:H2.
  { apply Uint32Array_first_throws in H2. subst e.
    right; left; reflexivity. }
  destruct (JSON_parse (metadataText_of pt ml)) as [metadata |];
    [ | right; right; left; reflexivity ].
  destruct metadata;
    try (match goal with
         | |- context [ToString (type_of ?m)] =>
           destruct (ToString (type_of m)) as [e | blobType] eqn:H5
         end;
         [ apply ToString_throws in H5; subst e;
           right; right; right; left; reflexivity
         | right; right; right; right; eexists; reflexivity ]).
  right; right; right; left; reflexivity.
Qed.

(** X9.  [encryptFile] draws 28 random octets and no more: they are the
    first 28 octets of the container, and the source is left 28 octets
    further.  [decryptFile] draws none.  So no random octet serves two
    encryptions. *)
Theorem encryptFile_draws_28 (file : File) (password : jsstring) cb w :
  exists w1 container,
    encryptFile file password cb w = (w1, inr container)
    /\ firstn 28 (blob_bytes container) = map (random w) (seq 0 28)
    /\ (forall i, random w1 i = random w (28 + i)%nat)
    /\ (forall file' password' cb',
          random (fst (decryptFile file' password' cb' w1)) = random w1)
    /\ salt_of w1 ++ iv_of w1 = map (random w) (seq 28 28).
Proof.
  eexists. eexists. split; [ apply encryptFile_eq | ].
  assert (Hrandom : forall i,
             random
               (reports cb [20; 30; 50; 70; 90; 100]
                  (drawn IV_LENGTH (drawn SALT_LENGTH (reports cb [10] w))))
               i
             = random w (28 + i)%nat).
  { intros i. rewrite random_reports.
    unfold drawn, getRandomValues, SALT_LENGTH, IV_LENGTH.
    cbn [fst random]. rewrite random_reports. reflexivity. }
  split; [ | split; [ exact Hrandom | split ] ].
  - cbn [blob_bytes]. unfold encrypted_of, container_of.
    rewrite app_assoc, firstn_app.
    replace (length (salt_of w ++ iv_of w)) with 28%nat
      by (rewrite length_app, salt_of_length, iv_of_length; reflexivity).
    rewrite Nat.sub_diag, firstn_O, app_nil_r.
    rewrite firstn_all2
      by (rewrite length_app, salt_of_length, iv_of_length; lia).
    reflexivity.
  - intros file' password' cb'.
    rewrite decryptFile_outcome. cbn [fst]. apply random_reports.
  - unfold salt_of, iv_of, SALT_LENGTH, IV_LENGTH.
    cbn [seq map app]. rewrite !Hrandom. reflexivity.
Qed.

(** X10.  Whatever the metadata holds, when its type converts to a
    string, so that the Blob is built, the content [decryptFile] returns is
    the plaintext without its first four octets and without the metadata:
    prefix, metadata and content, in this order, are the plaintext. *)
Theorem decryptFile_partition (file : File) (password : jsstring) cb w
    (decryptedBytes : bytes) (n : Z) (metadata : value)
    (blobType : jsstring) :
  decryptedData_of file password = Some decryptedBytes ->
  metadataLength_of decryptedBytes = inr (Some n) ->
  JSON_parse (metadataText_of decryptedBytes (Some n)) = Some metadata ->
  metadata <> JNull ->
  ToString
    (or_else (property metadata (lit "type"))
       (JString (lit "application/octet-stream")))
  = inr blobType ->
  exists d,
    decryptFile file password cb w
    = (reports cb [10; 20; 30; 50; 70; 100] w, inr d)
    /\ 0 <= n < 2 ^ 32
    /\ slice 0 4 decryptedBytes
       ++ slice 4 (4 + Z.to_nat n) decryptedBytes
       ++ blob_bytes (blob d)
       = decryptedBytes
    /\ length (blob_bytes (blob d))
       = (length decryptedBytes - (4 + Z.to_nat n))%nat.
Proof.
  intros H1 H2 H3 H4 H5.
  exists (decrypted decryptedBytes (Some n) metadata blobType).
  split; [ apply decryptFile_returns; assumption | ].
  assert (Hn : 0 <= n < 2 ^ 32).
  { apply (Uint32Array_first_bound (slice 0 4 decryptedBytes)). exact H2. }
  split; [ exact Hn | ].
  cbn [decrypted blob blob_bytes]. unfold metadata_end.
  replace (Z.to_nat (4 + n)) with (4 + Z.to_nat n)%nat by lia.
  split.
  - apply slices_partition. lia.
  - unfold slice_from. apply length_skipn.
Qed.


End CipherOutcomes.

Section CipherSizes.
Context {P : Platform} {ok : PlatformOk P}.
Variable UI : Type.
Implicit Types (w : World UI) (cb : option (callback UI)).

(** X13.  Where AES-GCM appends its tag of 16 octets, as it does, the
    container is 48 octets and the metadata record longer than the file:
    salt, nonce, length prefix and tag.  An input of fewer than 44 octets,
    which can hold no tag, is rejected with the error of a wrong password,
    whatever the password. *)
Theorem container_size (file : File) (password : jsstring) cb w :
  (forall key iv data,
      length (aes_gcm_encrypt key iv data) = (length data + 16)%nat) ->
  (exists w1 container,
      encryptFile file password cb w = (w1, inr container)
      /\ length (blob_bytes container)
         = (48 + length (metadataBytes_of file) + length (file_bytes file))%nat)
  /\ ((length (file_bytes file) < 44)%nat ->
      decryptFile file password cb w
      = (reports cb [10; 20; 30; 50] w, inl (Error wrong_password_or_corrupt))).
Proof.
  intros Htag. split.
  - eexists. eexists. split; [ apply encryptFile_eq | ].
    cbn [blob_bytes]. unfold encrypted_of, container_of, plaintext_of.
    rewrite !length_app, Htag, !length_app.
    rewrite salt_of_length, iv_of_length, Uint32Array_of_length. lia.
  - intros H. apply decryptFile_rejected.
    apply decryptedData_of_short. exact H.
Qed.

(** X14.  The key is the first block of PBKDF2, 32 octets for every
    password and every salt, the empty ones too. *)
Theorem deriveKey_one_block (password : jsstring) (salt : bytes) :
  deriveKey password salt
  = PBKDF2_F (HMAC_key_block (TextEncoder_encode password)) salt ITERATIONS 1
  /\ length (deriveKey password salt) = 32%nat.
Proof.
  split.
  - apply deriveKey_first_block.
  - apply deriveKey_length.
Qed.

End CipherSizes.

(** ** The application *)

Lemma filter_true {A} (f : A -> bool) (l : list A) :
  Forall (fun x => f x = true) l -> filter f l = l.
Proof.
  induction 1 as [| x l Hx _ IH]; cbn [filter].
  - reflexivity.
  - rewrite Hx, IH. reflexivity.
Qed.

Section AppFacts.
Context {P : Platform} {E : App.Engine}.
Import App.

Local Open Scope cipher_scope.

Lemma downloadBlob_eq (blob : Blob) (filename : value) (name : jsstring)
    (w : World Browser) :
  well_formed (ui w) ->
  ToString filename = inr name ->
  downloadBlob blob filename w
  = ({| ui := {| state := state (ui w); body := body (ui w);
                 objectURLs := objectURLs (ui w);
                 fresh := S (S (fresh (ui w)));
                 downloads := downloads (ui w) ++ [(blob, JString name)];
                 timers := timers (ui w) |};
        random := random w |},
     inr tt).
Proof.
  intros [Hbody Hurls] Hname. destruct w as [b r]. cbn [ui random] in *.
  unfold downloadBlob, createObjectURL, createElement, appendChild, click,
    removeChild, revokeObjectURL, update, bind.
  rewrite Hname. unfold lift, ret.
  cbn [ui random state body objectURLs fresh downloads timers resolve].
  rewrite Nat.eqb_refl.
  cbn [ui random state body objectURLs fresh downloads timers filter fst
       negb].
  rewrite existsb_app. cbn [existsb]. rewrite Nat.eqb_refl, orb_true_r.
  cbn [ui random state body objectURLs fresh downloads timers filter fst
       negb].
  rewrite Nat.eqb_refl. cbn [negb].
  rewrite filter_app. cbn [filter]. rewrite Nat.eqb_refl. cbn [negb].
  rewrite app_nil_r.
  rewrite (filter_true _ (body b)), (filter_true _ (objectURLs b)).
  - reflexivity.
  - eapply Forall_impl; [ | exact Hurls ]. intros [u blob'] H.
    cbn [fst] in *. apply negb_true_iff, Nat.eqb_neq.
    clear Hbody Hurls. lia.
  - eapply Forall_impl; [ | exact Hbody ]. intros n H.
    apply negb_true_iff, Nat.eqb_neq.
    clear Hbody Hurls. cbn beta in H. lia.
Qed.

Lemma downloadBlob_throws (blob : Blob) (filename : value) (e : exn)
    (w : World Browser) :
  ToString filename = inl e ->
  downloadBlob blob filename w
  = ({| ui := leaked (ui w) blob; random := random w |}, inl e).
Proof.
  intros Hname. destruct w as [b r].
  unfold downloadBlob, createObjectURL, createElement, bind.
  rewrite Hname. reflexivity.
Qed.

Lemma leaked_well_formed (b : Browser) (blob : Blob) :
  well_formed b -> well_formed (leaked b blob).
Proof.
  intros [Hbody Hurls]. split; cbn [leaked body objectURLs fresh].
  - eapply Forall_impl; [ | exact Hbody ]. cbn beta. lia.
  - constructor.
    + cbn [fst]. lia.
    + eapply Forall_impl; [ | exact Hurls ]. cbn beta. lia.
Qed.

(** X15.  [downloadBlob] converts the name to a string and then either
    starts one download or none.  When the name has a string, the blob is
    downloaded under that string and no trace is left: the anchor is out of
    the document again and the object URL is revoked, so that the body and
    the URL store are as they were.  When the name has no string, the
    function throws the TypeError of the conversion, nothing is downloaded,
    and the object URL it created stays in the store, never revoked. *)
Theorem downloadBlob_effects (blob : Blob) (filename : value)
    (b : Browser) (r : nat -> byte) :
  well_formed b ->
  (forall name, ToString filename = inr name ->
   exists b',
     downloadBlob blob filename {| ui := b; random := r |}
     = ({| ui := b'; random := r |}, inr tt)
     /\ downloads b' = downloads b ++ [(blob, JString name)]
     /\ body b' = body b
     /\ objectURLs b' = objectURLs b
     /\ state b' = state b
     /\ timers b' = timers b
     /\ well_formed b')
  /\ (forall e, ToString filename = inl e ->
      exists b',
        downloadBlob blob filename {| ui := b; random := r |}
        = ({| ui := b'; random := r |}, inl TypeError)
        /\ downloads b' = downloads b
        /\ body b' = body b
        /\ objectURLs b' = (fresh b, blob) :: objectURLs b
        /\ state b' = state b
        /\ timers b' = timers b
        /\ well_formed b').
Proof.
  intros H. split.
  - intros name Hname. eexists.
    split; [ apply (downloadBlob_eq blob filename name); assumption | ].
    cbn [ui downloads body objectURLs state timers].
    repeat split; try reflexivity; destruct H as [Hbody Hurls];
      cbn [body objectURLs fresh].
    + eapply Forall_impl; [ | exact Hbody ]. cbn beta. lia.
    + eapply Forall_impl; [ | exact Hurls ]. cbn beta. lia.
  - intros e He. exists (leaked b blob).
    pose proof (ToString_throws _ _ He) as ->.
    split; [ apply (downloadBlob_throws blob filename TypeError); exact He | ].
    cbn [leaked downloads body objectURLs state timers].
    repeat split; try reflexivity; apply (leaked_well_formed b blob H).
Qed.


Lemma encrypted_of_random {UI1 UI2 : Type} (f : File) (p : jsstring)
    (w1 : World UI1) (w2 : World UI2) :
  random w1 = random w2 -> encrypted_of f p w1 = encrypted_of f p w2.
Proof.
  unfold encrypted_of, container_of, salt_of, iv_of. intros ->. reflexivity.
Qed.

Lemma handleProcess_encrypt_eq (b : Browser) (r : nat -> byte) (f : File) :
  well_formed b ->
  mode (state b) = encrypt ->
  file (state b) = Some f ->
  password (state b) <> [] ->
  handleProcess {| ui := b; random := r |}
  = ({| ui :=
          succeeded b
            ({| blob_bytes :=
                  encrypted_of f (password (state b))
                    {| ui := b; random := r |};
                blob_type := JString (lit "application/encrypted") |},
             JString (file_name f ++ lit ".encrypted"));
        random := fun i => r (28 + i)%nat |},
     inr tt).
Proof.
  intros Hwf Hmode Hfile Hpw.
  destruct b as [[m fl pw st pr er] bd urls n dl tm].
  cbn [state mode file password] in Hmode, Hfile, Hpw. subst m fl.
  destruct pw as [| c pw']; [ contradiction | ].
  unfold handleProcess. cbn [ui state file password mode].
  cbv [bind update try_catch].
  rewrite encryptFile_eq.
  rewrite (downloadBlob_eq _ _ (file_name f ++ lit ".encrypted")).
  2: { destruct Hwf as [Hbody Hurls]. split; cbn; assumption. }
  2: { reflexivity. }
  cbn -[encrypted_of lit]. unfold succeeded.
  cbn [state mode file password body objectURLs fresh downloads timers].
  reflexivity.
Qed.

Lemma handleProcess_decrypt_eq (b : Browser) (r : nat -> byte) (f : File) :
  well_formed b ->
  mode (state b) = decrypt ->
  file (state b) = Some f ->
  password (state b) <> [] ->
  handleProcess {| ui := b; random := r |}
  = ({| ui :=
          match snd (outcome_of f (password (state b))) with
          | inr d =>
            match ToString (filename d) with
            | inr name => succeeded b (blob d, JString name)
            | inl e => failed (leaked b (blob d)) (message_of e) 100
            end
          | inl e =>
            failed b (message_of e)
              (last (fst (outcome_of f (password (state b)))) 0)
          end;
        random := r |},
     inr tt).
Proof.
  intros Hwf Hmode Hfile Hpw.
  destruct b as [[m fl pw st pr er] bd urls n dl tm].
  cbn [state mode file password] in Hmode, Hfile, Hpw. subst m fl.
  destruct pw as [| c pw']; [ contradiction | ].
  unfold handleProcess. cbn [ui state file password mode].
  cbv [bind update try_catch].
  rewrite decryptFile_outcome.
  destruct (outcome_of_cases f (c :: pw'))
    as [Ho | [[e Ho] | [[e Ho] | [d Ho]]]];
    rewrite Ho; cbn [fst snd].
  4: { destruct (ToString (filename d)) as [e | name] eqn:Hname.
       - rewrite (downloadBlob_throws _ _ e) by exact Hname.
         cbn. reflexivity.
       - rewrite (downloadBlob_eq _ _ name).
         2: { destruct Hwf as [Hbody Hurls]. split; cbn; assumption. }
         2: { exact Hname. }
         cbn. reflexivity. }
  all: cbn; reflexivity.
Qed.


(** X16.  In the mode of encryption [handleProcess], given a file and a
    password, always succeeds: it starts one download, of the container
    of the file under the name of the file followed by [.encrypted], shows
    the progress 100 and no error, queues the timer of 2000 ms, draws 28
    random octets, and leaves the document and the URL store as they
    were. *)
Theorem handleProcess_encrypt (b : Browser) (r : nat -> byte) (f : File) :
  well_formed b ->
  mode (state b) = encrypt ->
  file (state b) = Some f ->
  password (state b) <> [] ->
  exists w',
    handleProcess {| ui := b; random := r |} = (w', inr tt)
    /\ downloads (ui w')
       = downloads b
         ++ [({| blob_bytes :=
                   encrypted_of f (password (state b))
                     {| ui := b; random := r |};
                 blob_type := JString (lit "application/encrypted") |},
              JString (file_name f ++ lit ".encrypted"))]
    /\ status (state (ui w')) = success
    /\ progress (state (ui w')) = 100
    /\ error (state (ui w')) = None
    /\ timers (ui w') = timers b ++ [(2000, after_success)]
    /\ body (ui w') = body b
    /\ objectURLs (ui w') = objectURLs b
    /\ (forall i, random w' i = r (28 + i)%nat).
Proof.
  intros Hwf Hmode Hfile Hpw.
  eexists. split; [ apply (handleProcess_encrypt_eq b r f); assumption | ].
  cbn [ui random succeeded state status progress error downloads timers body
       objectURLs].
  repeat split; reflexivity.
Qed.

(** X17.  In the mode of decryption [handleProcess] never throws, and is
    all or nothing.  When [decryptFile] returns and the name of the result
    has a string, the blob is downloaded under that string, the status is
    [success], no error is kept, the progress is 100, and the document and
    the URL store are as they were.  When [decryptFile] returns and the
    name has no string, nothing is downloaded, the status is [error] with
    the message of the TypeError at the progress 100, and the object URL of
    the blob stays in the store.  When [decryptFile] throws, nothing is
    downloaded, the status is [error] with the message of the error, the
    progress stays at 50, 70 or 100, and the URL store is as it was; after
    a rejected decryption the message is that of a wrong password and the
    progress is 50.  No random octet is drawn. *)
Theorem handleProcess_decrypt (b : Browser) (r : nat -> byte) (f : File) :
  well_formed b ->
  mode (state b) = decrypt ->
  file (state b) = Some f ->
  password (state b) <> [] ->
  exists b',
    handleProcess {| ui := b; random := r |}
    = ({| ui := b'; random := r |}, inr tt)
    /\ body b' = body b
    /\ match
         snd (decryptFile f (password (state b)) None
                {| ui := tt; random := r |})
       with
       | inr d =>
         match ToString (filename d) with
         | inr name =>
           downloads b' = downloads b ++ [(blob d, JString name)]
           /\ objectURLs b' = objectURLs b
           /\ status (state b') = success
           /\ error (state b') = None
           /\ progress (state b') = 100
           /\ timers b' = timers b ++ [(2000, after_success)]
         | inl _ =>
           downloads b' = downloads b
           /\ objectURLs b' = (fresh b, blob d) :: objectURLs b
           /\ status (state b') = error_status
           /\ error (state b') = Some (message_of TypeError)
           /\ progress (state b') = 100
           /\ timers b' = timers b ++ [(3000, after_error)]
         end
       | inl e =>
         downloads b' = downloads b
         /\ objectURLs b' = objectURLs b
         /\ status (state b') = error_status
         /\ error (state b') = Some (message_of e)
         /\ In (progress (state b')) [50; 70; 100]
         /\ timers b' = timers b ++ [(3000, after_error)]
       end
    /\ (decryptedData_of f (password (state b)) = None ->
        error (state b') = Some wrong_password_or_corrupt
        /\ progress (state b') = 50).
Proof.
  intros Hwf Hmode Hfile Hpw.
  eexists. split; [ apply (handleProcess_decrypt_eq b r f); assumption | ].
  rewrite decryptFile_outcome.
  split.
  { destruct (snd (outcome_of f (password (state b)))) as [e | d];
      [ reflexivity | ].
    destruct (ToString (filename d)); reflexivity. }
  split.
  - destruct (outcome_of_cases f (password (state b)))
      as [Ho | [[e Ho] | [[e Ho] | [d Ho]]]];
      rewrite Ho; cbn [fst snd last].
    4: { destruct (ToString (filename d)) as [e | name] eqn:Hname.
         - pose proof (ToString_throws _ _ Hname) as ->.
           cbn [failed leaked succeeded state status progress error
                downloads timers objectURLs].
           repeat split; reflexivity.
         - cbn [failed leaked succeeded state status progress error
                downloads timers objectURLs].
           repeat split; reflexivity. }
    all: cbn [failed succeeded state status progress error downloads timers
              objectURLs];
      repeat split; try reflexivity; cbn [In]; auto.
  - intros H. unfold outcome_of. rewrite H.
    cbn [fst snd last failed state error progress message_of].
    split; reflexivity.
Qed.

(** X18.  After a run and its timer the application is idle again and
    shows neither the bar, nor the panel of success, nor a message.  After
    a success, which showed its panel until the timer, the file and the
    password are forgotten, and the button is disabled until both are given
    anew.  After an error the message, when it is not empty, was shown
    until the timer; then it is kept in the state and shown no more, the
    file and the password stay, and the button is enabled for another try
    when the password has 4 code units. *)
Theorem handleProcess_then_timer (b : Browser) (r : nat -> byte) (f : File) :
  well_formed b ->
  timers b = [] ->
  file (state b) = Some f ->
  password (state b) <> [] ->
  exists w',
    handleProcess {| ui := b; random := r |} = (w', inr tt)
    /\ status (state (fire (ui w'))) = idle
    /\ panel (state (fire (ui w'))) = None
    /\ timers (fire (ui w')) = []
    /\ mode (state (fire (ui w'))) = mode (state b)
    /\ ((status (state (ui w')) = success
         /\ panel (state (ui w')) = Some success_panel
         /\ file (state (fire (ui w'))) = None
         /\ password (state (fire (ui w'))) = []
         /\ canProcess (state (fire (ui w'))) = false)
        \/ (status (state (ui w')) = error_status
            /\ (exists message,
                  error (state (ui w')) = Some message
                  /\ error (state (fire (ui w'))) = Some message
                  /\ panel (state (ui w'))
                     = match message with
                       | [] => None
                       | _ :: _ => Some (error_panel message)
                       end)
            /\ file (state (fire (ui w'))) = Some f
            /\ password (state (fire (ui w'))) = password (state b)
            /\ canProcess (state (fire (ui w')))
               = (4 <=? length (password (state b)))%nat)).
Proof.
  intros Hwf Htimers Hfile Hpw.
  assert (Hfailed : forall b0 message p,
            timers b0 = [] -> file (state b0) = Some f ->
            password (state b0) = password (state b) ->
            mode (state b0) = mode (state b) ->
            status (state (fire (failed b0 message p))) = idle
            /\ panel (state (fire (failed b0 message p))) = None
            /\ timers (fire (failed b0 message p)) = []
            /\ mode (state (fire (failed b0 message p))) = mode (state b)
            /\ ((status (state (failed b0 message p)) = success
                 /\ panel (state (failed b0 message p)) = Some success_panel
                 /\ file (state (fire (failed b0 message p))) = None
                 /\ password (state (fire (failed b0 message p))) = []
                 /\ canProcess (state (fire (failed b0 message p))) = false)
                \/ (status (state (failed b0 message p)) = error_status
                    /\ (exists message',
                          error (state (failed b0 message p)) = Some message'
                          /\ error (state (fire (failed b0 message p)))
                             = Some message'
                          /\ panel (state (failed b0 message p))
                             = match message' with
                               | [] => None
                               | _ :: _ => Some (error_panel message')
                               end)
                    /\ file (state (fire (failed b0 message p))) = Some f
                    /\ password (state (fire (failed b0 message p)))
                       = password (state b)
                    /\ canProcess (state (fire (failed b0 message p)))
                       = (4 <=? length (password (state b)))%nat))).
  { intros b0 message p Ht Hf Hp Hm.
    unfold fire, failed. cbn [timers]. rewrite Ht.
    cbn [app state status timers mode file password error after_error
         setStatus canProcess panel].
    rewrite Hf, Hp.
    repeat split; try assumption. right.
    split; [ reflexivity | ].
    split; [ | repeat split ].
    exists message. repeat split. destruct message; reflexivity. }
  destruct (mode (state b)) eqn:Hmode.
  - eexists. split; [ apply (handleProcess_encrypt_eq b r f); assumption | ].
    cbn [ui]. unfold fire, succeeded. cbn [timers]. rewrite Htimers.
    cbn [app state status timers mode file password after_success setPassword
         setFile setStatus canProcess panel].
    repeat split; try assumption. left. repeat split.
  - eexists. split; [ apply (handleProcess_decrypt_eq b r f); assumption | ].
    cbn [ui].
    destruct (snd (outcome_of f (password (state b)))) as [e | d].
    + apply Hfailed; try assumption; reflexivity.
    + destruct (ToString (filename d)) as [e | name].
      * apply Hfailed; cbn [leaked timers state]; try assumption;
          reflexivity.
      * unfold fire, succeeded. cbn [timers]. rewrite Htimers.
        cbn [app state status timers mode file password after_success
             setPassword setFile setStatus canProcess panel].
        repeat split; try assumption. left. repeat split.
Qed.

End AppFacts.

Lemma ToString_nonempty_or {P : Platform} (s fallback : jsstring) :
  ToString (nonempty_or s fallback)
  = inr (match s with [] => fallback | _ :: _ => s end).
Proof. destruct s; reflexivity. Qed.

Section AppRoundTrip.
Context {P : Platform} {ok : PlatformOk P} {E : App.Engine}.
Import App.

(** X19.  The application end to end.  A run in the mode of encryption
    downloads the container under the name of the file followed by
    [.encrypted].  When the timer has run, and the user has switched to the
    mode of decryption, selected the file downloaded, whatever name and
    type it has by then, and typed the password again, the next run
    downloads the content of the first file under its first name, that is
    what [restored] gives. *)
Theorem app_round_trip (b : Browser) (r : nat -> byte) (f : File)
    (name' type' : jsstring) :
  well_formed b ->
  timers b = [] ->
  mode (state b) = encrypt ->
  file (state b) = Some f ->
  password (state b) <> [] ->
  is_jsstring (file_name f) -> is_jsstring (file_type f) ->
  Z.of_nat (length (metadataBytes_of f)) < 2 ^ 32 ->
  exists w1 d1 w2,
    handleProcess {| ui := b; random := r |} = (w1, inr tt)
    /\ downloads (ui w1) = downloads b ++ [d1]
    /\ snd d1 = JString (file_name f ++ lit ".encrypted")
    /\ handleProcess
         {| ui :=
              on_state
                (fun s =>
                   setPassword (password (state b))
                     (setFile (Some (saved d1 name' type'))
                        (selectMode decrypt s)))
                (fire (ui w1));
            random := random w1 |}
       = (w2, inr tt)
    /\ downloads (ui w2)
       = downloads b
         ++ [d1; (blob (restored f), filename (restored f))]
    /\ status (state (ui w2)) = success
    /\ error (state (ui w2)) = None.
Proof.
  intros Hwf Htimers Hmode Hfile Hpw Hname Htype Hlen.
  set (d1 := ({| blob_bytes :=
                   encrypted_of f (password (state b))
                     {| ui := b; random := r |};
                 blob_type := JString (lit "application/encrypted") |},
              JString (file_name f ++ lit ".encrypted"))).
  set (b2 := on_state
               (fun s =>
                  setPassword (password (state b))
                    (setFile (Some (saved d1 name' type'))
                       (selectMode decrypt s)))
               (fire (succeeded b d1))).
  assert (Hwf2 : well_formed b2).
  { destruct Hwf as [Hbody Hurls]. unfold b2, fire, succeeded.
    cbn [timers]. rewrite Htimers. cbn [app].
    split; cbn [on_state body objectURLs fresh].
    - eapply Forall_impl; [ | exact Hbody ]. cbn beta. lia.
    - eapply Forall_impl; [ | exact Hurls ]. cbn beta. lia. }
  assert (Hstate2 : state b2
                    = {| mode := decrypt;
                         file := Some (saved d1 name' type');
                         password := password (state b);
                         status := idle; progress := 100; error := None |}).
  { unfold b2, fire, succeeded. cbn [timers]. rewrite Htimers. reflexivity. }
  assert (Hdownloads2 : downloads b2 = downloads b ++ [d1]).
  { unfold b2, fire, succeeded. cbn [timers]. rewrite Htimers. reflexivity. }
  assert (Ho : snd (outcome_of (saved d1 name' type') (password (state b)))
               = inr (restored f)).
  { pose proof (decryptFile_outcome Browser (saved d1 name' type')
                  (password (state b)) None {| ui := b; random := r |})
      as Hout.
    rewrite (decryptFile_encrypted Browser f (saved d1 name' type')
               (password (state b)) {| ui := b; random := r |} None
               {| ui := b; random := r |} Hname Htype Hlen eq_refl) in Hout.
    apply (f_equal snd) in Hout. cbn [snd] in Hout. symmetry. exact Hout. }
  exists {| ui := succeeded b d1; random := fun i => r (28 + i)%nat |}.
  exists d1. eexists.
  split; [ apply (handleProcess_encrypt_eq b r f); assumption | ].
  split; [ reflexivity | ]. split; [ reflexivity | ].
  cbn [ui random]. fold b2.
  split.
  - apply handleProcess_decrypt_eq.
    + exact Hwf2.
    + rewrite Hstate2. reflexivity.
    + rewrite Hstate2. reflexivity.
    + rewrite Hstate2. exact Hpw.
  - rewrite Hstate2. cbn [ui file password]. rewrite Ho.
    rewrite (ToString_nonempty_or (file_name f) default_filename).
    unfold succeeded. cbn [downloads state status error].
    rewrite Hdownloads2, <- app_assoc.
    repeat split. do 3 f_equal.
    unfold restored. cbn [filename]. unfold nonempty_or.
    case (file_name f); reflexivity.
Qed.

End AppRoundTrip.

(** ** The drop zone *)

(** X20.  While the drop zone is disabled, as it is while a file is
    processed, nothing the user drags, drops, picks or clicks changes the
    selected file, and the zone does not start to show a drag.  While it
    is enabled and holds a file, only a drop of at least one file or the
    button that removes the file changes it: every sequence of the other
    events, drags over and out, drops of nothing and file dialogs, keeps
    the file; a drop selects the first file dropped, and the button leaves
    none. *)
Theorem disabled_zone_keeps_file (events : list DropZone.Event)
    (s : DropZone.State) :
  DropZone.file (DropZone.run true events s) = DropZone.file s
  /\ (DropZone.isDragging (DropZone.run true events s) = true ->
      DropZone.isDragging s = true)
  /\ (Forall (fun e => match e with
                       | DropZone.drop (_ :: _) | DropZone.remove => False
                       | _ => True
                       end) events ->
      DropZone.file s <> None ->
      DropZone.file (DropZone.run false events s) = DropZone.file s)
  /\ (DropZone.file s <> None ->
      (forall droppedFile rest,
         DropZone.file
           (DropZone.dispatch false (DropZone.drop (droppedFile :: rest)) s)
         = Some droppedFile)
      /\ DropZone.file (DropZone.dispatch false DropZone.remove s) = None).
Proof.
  unfold DropZone.run. split; [ | split; [ | split ] ].
  - revert s. induction events as [| e events IH]; intros s; cbn [fold_left].
    + reflexivity.
    + rewrite IH. destruct s as [d f]. destruct e as [| | files | files |];
        cbn; try reflexivity; destruct f; reflexivity.
  - revert s. induction events as [| e events IH]; intros s; cbn [fold_left].
    + intros H. exact H.
    + intros H. apply IH in H. destruct s as [d f].
      destruct e as [| | files | files |]; cbn in H |- *;
        try discriminate; try exact H; destruct f; cbn in H; exact H.
  - intros Hall. revert s.
    induction Hall as [| e events He _ IH]; intros s Hfile;
      cbn [fold_left].
    + reflexivity.
    + assert (Hstep : DropZone.file (DropZone.dispatch false e s)
                      = DropZone.file s).
      { destruct s as [d [f |]]; [ | contradiction ].
        destruct e as [| | [| droppedFile rest] | files |];
          try contradiction; reflexivity. }
      rewrite IH; [ exact Hstep | ]. rewrite Hstep. exact Hfile.
  - intros Hfile. destruct s as [d [f |]]; [ | contradiction ].
    split; [ intros droppedFile rest | ]; reflexivity.
Qed.

(* ===================================================================== *)
(** * The further properties on the reference platform *)

Module MoreWitnesses.
Import Reference ReferenceFacts ExampleFacts Examples.

Lemma seal_length (key iv data : bytes) :
  length (seal key iv data) = (length data + 16)%nat.
Proof.
  unfold seal. rewrite length_app, length_map, tag_length. reflexivity.
Qed.

Lemma well_formed_browser0 (m : App.Mode) (f : File) (p : jsstring) :
  App.well_formed (browser0 m f p).
Proof.
  split; cbn [browser0 App.body App.objectURLs App.fresh].
  - repeat constructor.
  - constructor.
Qed.

(** Nineteen letters of one case are ['Regular'], nineteen digits are
    ['Buena']. *)
Lemma getPasswordStrength_one_class_witness :
  level (getPasswordStrength (lit "correcthorsebattery")) = 2%nat
  /\ level (getPasswordStrength (lit "1234567890123456789")) = 3%nat.
Proof.
  split.
  - apply (getPasswordStrength_one_class (lit "correcthorsebattery"));
      [ discriminate | ].
    left. repeat constructor.
  - apply (getPasswordStrength_one_class (lit "1234567890123456789"));
      [ discriminate | ].
    repeat constructor.
Defined.

Lemma formatFileSize_below_1024_witness :
  formatFileSize 1023 = "1023 B"%string.
Proof.
  apply (formatFileSize_below_1024 1023). split; [ discriminate | reflexivity ].
Defined.

Lemma formatFileSize_number_range_witness :
  formatFileSize 1536
  = String.append (number_to_string (tenths 1536 (unit_index 1536)))
      (String.append " "
         match sizes_at (unit_index 1536) with
         | Some u => u
         | None => "undefined"%string
         end)
  /\ (10 <= tenths 1536 (unit_index 1536) <= 10240)%N.
Proof.
  apply (formatFileSize_number_range 1536). discriminate.
Defined.

Lemma formatFileSize_rounds_to_1024_witness :
  formatFileSize 1048575 = "1024 KB"%string
  /\ formatFileSize (1024 ^ 5 - 1) = "1 undefined"%string.
Proof.
  split.
  - destruct (formatFileSize_rounds_to_1024 1048575 1) as [_ H].
    + reflexivity.
    + discriminate.
    + apply H. discriminate.
  - destruct (formatFileSize_rounds_to_1024 (1024 ^ 5 - 1) 4) as [H _].
    + reflexivity.
    + discriminate.
    + exact H.
Defined.

Lemma container_size_witness :
  (exists w1 container,
      encryptFile a_txt correct_horse (Some recorder) world0
      = (w1, inr container)
      /\ length (blob_bytes container)
         = (48 + length (metadataBytes_of a_txt)
            + length (file_bytes a_txt))%nat)
  /\ ((length (file_bytes a_txt) < 44)%nat ->
      decryptFile a_txt correct_horse (Some recorder) world0
      = (reports (Some recorder) [10; 20; 30; 50] world0,
         inl (Error wrong_password_or_corrupt))).
Proof.
  apply (@container_size platform platform_ok (list Z) a_txt correct_horse
           (Some recorder) world0).
  intros key iv data. apply seal_length.
Defined.


Lemma decryptFile_partition_witness :
  exists d,
    decryptFile
      (received
         (container_of correct_horse world0 plaintext_with_untyped_fields))
      correct_horse (Some recorder) world0
    = (reports (Some recorder) [10; 20; 30; 50; 70; 100] world0, inr d)
    /\ 0 <= 27 < 2 ^ 32
    /\ slice 0 4 plaintext_with_untyped_fields
       ++ slice 4 (4 + Z.to_nat 27) plaintext_with_untyped_fields
       ++ blob_bytes (blob d)
       = plaintext_with_untyped_fields
    /\ length (blob_bytes (blob d))
       = (length plaintext_with_untyped_fields - (4 + Z.to_nat 27))%nat.
Proof.
  apply (@decryptFile_partition platform (list Z)
           (received
              (container_of correct_horse world0
                 plaintext_with_untyped_fields))
           correct_horse (Some recorder) world0
           plaintext_with_untyped_fields 27
           (JObject [(lit "name", JArray [JString (lit "x")]);
                     (lit "type", JBool false)])
           (lit "application/octet-stream")).
  - apply (decryptedData_of_sealed (list Z) _ correct_horse world0).
    reflexivity.
  - vm_compute. reflexivity.
  - vm_compute. reflexivity.
  - discriminate.
  - reflexivity.
Defined.

Lemma deriveKey_one_block_witness :
  deriveKey correct_horse (salt_of world0)
  = PBKDF2_F (HMAC_key_block (TextEncoder_encode correct_horse))
      (salt_of world0) ITERATIONS 1
  /\ length (deriveKey correct_horse (salt_of world0)) = 32%nat.
Proof.
  exact (@deriveKey_one_block platform platform_ok correct_horse
           (salt_of world0)).
Defined.

Lemma downloadBlob_effects_witness :
  (exists b',
      App.downloadBlob
        {| blob_bytes := file_bytes a_txt;
           blob_type := JString (lit "text/plain") |}
        (JArray [JString (lit "a"); JString (lit "txt")])
        {| ui := browser0 App.encrypt a_txt correct_horse;
           random := random world0 |}
      = ({| ui := b'; random := random world0 |}, inr tt)
      /\ App.downloads b'
         = [({| blob_bytes := file_bytes a_txt;
                blob_type := JString (lit "text/plain") |},
             JString (lit "a,txt"))]
      /\ App.objectURLs b' = [])
  /\ (exists b',
        App.downloadBlob
          {| blob_bytes := file_bytes a_txt;
             blob_type := JString (lit "text/plain") |}
          (JObject [(lit "toString", JNull)])
          {| ui := browser0 App.encrypt a_txt correct_horse;
             random := random world0 |}
        = ({| ui := b'; random := random world0 |}, inl TypeError)
        /\ App.downloads b' = []
        /\ App.objectURLs b'
           = [(2%nat, {| blob_bytes := file_bytes a_txt;
                         blob_type := JString (lit "text/plain") |})]).
Proof.
  split.
  - destruct (@downloadBlob_effects platform engine
                {| blob_bytes := file_bytes a_txt;
                   blob_type := JString (lit "text/plain") |}
                (JArray [JString (lit "a"); JString (lit "txt")])
                (browser0 App.encrypt a_txt correct_horse) (random world0)
                (well_formed_browser0 App.encrypt a_txt correct_horse))
      as [Hreturns _].
    destruct (Hreturns (lit "a,txt") eq_refl)
      as [b' [Hrun [Hdownloads [_ [Hurls _]]]]].
    exists b'. split; [ exact Hrun | ].
    split; [ exact Hdownloads | exact Hurls ].
  - destruct (@downloadBlob_effects platform engine
                {| blob_bytes := file_bytes a_txt;
                   blob_type := JString (lit "text/plain") |}
                (JObject [(lit "toString", JNull)])
                (browser0 App.encrypt a_txt correct_horse) (random world0)
                (well_formed_browser0 App.encrypt a_txt correct_horse))
      as [_ Hthrows].
    destruct (Hthrows TypeError eq_refl)
      as [b' [Hrun [Hdownloads [_ [Hurls _]]]]].
    exists b'. split; [ exact Hrun | ].
    split; [ exact Hdownloads | exact Hurls ].
Defined.

Lemma handleProcess_encrypt_witness :
  exists w',
    App.handleProcess
      {| ui := browser0 App.encrypt a_txt correct_horse;
         random := random world0 |}
    = (w', inr tt)
    /\ App.downloads (ui w')
       = [({| blob_bytes :=
                encrypted_of a_txt correct_horse
                  {| ui := browser0 App.encrypt a_txt correct_horse;
                     random := random world0 |};
              blob_type := JString (lit "application/encrypted") |},
           JString (lit "a.txt.encrypted"))]
    /\ App.status (App.state (ui w')) = App.success
    /\ App.progress (App.state (ui w')) = 100.
Proof.
  destruct (@handleProcess_encrypt platform engine
              (browser0 App.encrypt a_txt correct_horse) (random world0)
              a_txt)
    as [w' [Hrun [Hdownloads [Hstatus [Hprogress _]]]]].
  - apply well_formed_browser0.
  - reflexivity.
  - reflexivity.
  - discriminate.
  - exists w'. split; [ exact Hrun | ].
    split; [ exact Hdownloads | ]. split; assumption.
Defined.

(** A file of ten octets, which no password decrypts, gives the message of
    a wrong password and no download. *)
Lemma handleProcess_decrypt_witness :
  exists b',
    App.handleProcess
      {| ui := browser0 App.decrypt (received (repeat Byte.x00 10))
                 correct_horse;
         random := random world0 |}
    = ({| ui := b'; random := random world0 |}, inr tt)
    /\ App.error (App.state b') = Some wrong_password_or_corrupt
    /\ App.progress (App.state b') = 50.
Proof.
  destruct (@handleProcess_decrypt platform engine
              (browser0 App.decrypt (received (repeat Byte.x00 10))
                 correct_horse)
              (random world0) (received (repeat Byte.x00 10)))
    as [b' [Hrun [_ [_ Hrejected]]]].
  - apply well_formed_browser0.
  - reflexivity.
  - reflexivity.
  - discriminate.
  - exists b'. split; [ exact Hrun | ].
    apply Hrejected.
    apply (decryptedData_of_short (received (repeat Byte.x00 10))
             correct_horse).
    cbn [received file_bytes]. rewrite repeat_length. lia.
Defined.

Lemma handleProcess_then_timer_witness :
  exists w',
    App.handleProcess
      {| ui := browser0 App.encrypt a_txt correct_horse;
         random := random world0 |}
    = (w', inr tt)
    /\ App.status (App.state (App.fire (ui w'))) = App.idle
    /\ App.panel (App.state (App.fire (ui w'))) = None
    /\ App.timers (App.fire (ui w')) = [].
Proof.
  destruct (@handleProcess_then_timer platform engine
              (browser0 App.encrypt a_txt correct_horse) (random world0)
              a_txt)
    as [w' [Hrun [Hstatus [Hpanel [Htimers _]]]]].
  - apply well_formed_browser0.
  - reflexivity.
  - reflexivity.
  - discriminate.
  - exists w'. split; [ exact Hrun | ]. repeat split; assumption.
Defined.

Lemma app_round_trip_witness :
  exists w1 d1 w2,
    App.handleProcess
      {| ui := browser0 App.encrypt a_txt correct_horse;
         random := random world0 |}
    = (w1, inr tt)
    /\ App.downloads (ui w1)
       = App.downloads (browser0 App.encrypt a_txt correct_horse) ++ [d1]
    /\ snd d1 = JString (file_name a_txt ++ lit ".encrypted")
    /\ App.handleProcess
         {| ui :=
              App.on_state
                (fun s =>
                   App.setPassword
                     (App.password
                        (App.state (browser0 App.encrypt a_txt correct_horse)))
                     (App.setFile
                        (Some (App.saved d1 (lit "a.txt (1).encrypted") []))
                        (App.selectMode App.decrypt s)))
                (App.fire (ui w1));
            random := random w1 |}
       = (w2, inr tt)
    /\ App.downloads (ui w2)
       = App.downloads (browser0 App.encrypt a_txt correct_horse)
         ++ [d1; (blob (restored a_txt), filename (restored a_txt))]
    /\ App.status (App.state (ui w2)) = App.success
    /\ App.error (App.state (ui w2)) = None.
Proof.
  apply (@app_round_trip platform platform_ok engine
           (browser0 App.encrypt a_txt correct_horse) (random world0) a_txt
           (lit "a.txt (1).encrypted") []).
  - apply well_formed_browser0.
  - reflexivity.
  - reflexivity.
  - reflexivity.
  - discriminate.
  - apply Witnesses.is_jsstring_lit.
  - apply Witnesses.is_jsstring_lit.
  - vm_compute. reflexivity.
Defined.

(** With a file selected, drags, a file dialog and a drop of nothing keep
    it. *)
Lemma disabled_zone_keeps_file_witness :
  DropZone.file
    (DropZone.run false
       [DropZone.dragOver; DropZone.change (Some [received []]);
        DropZone.drop []; DropZone.dragLeave]
       {| DropZone.isDragging := false; DropZone.file := Some a_txt |})
  = Some a_txt.
Proof.
  destruct (disabled_zone_keeps_file
              [DropZone.dragOver; DropZone.change (Some [received []]);
               DropZone.drop []; DropZone.dragLeave]
              {| DropZone.isDragging := false;
                 DropZone.file := Some a_txt |})
    as [_ [_ [Hkept _]]].
  apply Hkept.
  - repeat constructor.
  - discriminate.
Defined.

End MoreWitnesses.
